(** * 3D U-Net model builder ([unet_3d_model.py]): shape-level verification

    The Python module wires Keras layers into an encoder/decoder graph.
    What the builder decides is which layers are created, with which
    arguments, in which order, and on which tensors they are called; the
    numeric content of the tensors belongs to the backend.  The embedding
    therefore represents a symbolic Keras tensor by its static shape and
    an identity, and runs the builder in a state-and-exception monad whose
    state is the journal of framework calls. *)

From Stdlib Require Import String.
From Stdlib Require Import ZArith QArith Qround List Bool Lia.
Import ListNotations.
Open Scope Z_scope.

(* ================================================================== *)
(** * Python values, exceptions and arithmetic                          *)
(* ================================================================== *)

Module Py.

(** The exception classes that can leave the module's functions. *)
Inductive Exn : Type :=
| ImportError (msg : string)
| NotImplementedError (msg : string)
| ValueError (msg : string)
| ZeroDivisionError (msg : string)
| OverflowError (msg : string)
| IndexError (msg : string).

(** Outcome of evaluating an expression: a value or a raised exception. *)
Inductive Result (A : Type) : Type :=
| Ok (a : A)
| Raise (e : Exn).
Arguments Ok {A} a.
Arguments Raise {A} e.

Definition rbind {A B} (r : Result A) (k : A -> Result B) : Result B :=
  match r with
  | Ok a => k a
  | Raise e => Raise e
  end.

(** [[g(x) for x in xs]], evaluated left to right; the first exception
    aborts the comprehension. *)
Fixpoint rmap {A B} (g : A -> Result B) (xs : list A) : Result (list B) :=
  match xs with
  | [] => Ok []
  | x :: xs' =>
      rbind (g x) (fun y => rbind (rmap g xs') (fun ys => Ok (y :: ys)))
  end.

(** A Python float: finite, infinite or not-a-number.  A finite float is
    carried as the rational it denotes. *)
Inductive Float : Type :=
| Fin (q : Q)
| Inf (negative : bool)
| NaN.

(** [int(x)] on a float: truncation toward zero; infinities and NaN
    are refused. *)
Definition trunc (q : Q) : Z := Z.quot (Qnum q) (Zpos (Qden q)).

Definition int_of_float (x : Float) : Result Z :=
  match x with
  | Fin q => Ok (trunc q)
  | Inf _ => Raise (OverflowError "cannot convert float infinity to integer")
  | NaN => Raise (ValueError "cannot convert float NaN to integer")
  end.

(** [int(x)] on an int. *)
Definition int_of_int (x : Z) : Z := x.

(** [a / f] with [a] an int literal and [f] a number, in exact
    arithmetic: the quotient before binary64 rounds it.  [int_truediv]
    below takes the rounded quotient; the two truncate alike at integer
    divisors. *)
Definition truediv (a : Z) (f : Q) : Result Q :=
  if Qnum f =? 0 then Raise (ZeroDivisionError "division by zero")
  else Ok (inject_Z a / f)%Q.

(** [a // b] on ints: floor division. *)
Definition floordiv (a b : Z) : Result Z :=
  if b =? 0 then Raise (ZeroDivisionError "integer division or modulo by zero")
  else Ok (a / b).

(** [t[-3:]] on a tuple. *)
Definition last3 {A} (t : list A) : list A := skipn (length t - 3) t.

(** ** Binary64 arithmetic

    The value a float operation returns is the exact result rounded to
    the nearest binary64, ties to even; a result of magnitude 2^1024 or
    more after rounding is an infinity.  A finite float is carried as the
    rational it denotes, zero without a sign. *)

(** [a / b] rounded to the nearest integer, ties to even ([0 <= a],
    [0 < b]). *)
Definition rne (a b : Z) : Z :=
  let q := a / b in
  let r := a mod b in
  match 2 * r ?= b with
  | Lt => q
  | Gt => q + 1
  | Eq => if Z.even q then q else q + 1
  end.

(** Whether [2^e <= n / d]. *)
Definition pow2_le (e n d : Z) : bool :=
  if 0 <=? e then d * 2 ^ e <=? n else d <=? n * 2 ^ (- e).

(** [floor (log2 (n / d))] for positive [n] and [d]: one of the two
    candidates the bit lengths leave. *)
Definition ilog2 (n d : Z) : Z :=
  let e0 := Z.log2 n - Z.log2 d in
  if pow2_le e0 n d then e0 else e0 - 1.

(** The binary64 nearest to [n / d], for positive [n] and [d]: the
    quotient is rounded to a multiple of [2^u], where [u] is 52 below
    its binary exponent and at least -1074 (the subnormal spacing). *)
Definition round_pos (n d : Z) : Float :=
  let e := ilog2 n d in
  let u := Z.max (e - 52) (-1074) in
  if 0 <=? u then
    let m := rne n (d * 2 ^ u) in
    if 2 ^ 1024 <=? m * 2 ^ u then Inf false else Fin (inject_Z (m * 2 ^ u))
  else
    let m := rne (n * 2 ^ (- u)) d in
    Fin (m # Z.to_pos (2 ^ (- u))).

Definition fneg (x : Float) : Float :=
  match x with
  | Fin q => Fin (- q)
  | Inf s => Inf (negb s)
  | NaN => NaN
  end.

(** The binary64 nearest to a rational. *)
Definition round64 (q : Q) : Float :=
  match Qnum q with
  | 0 => Fin 0
  | Zpos n => round_pos (Zpos n) (Zpos (Qden q))
  | Zneg n => fneg (round_pos (Zpos n) (Zpos (Qden q)))
  end.

(** An int as a binary64: exact up to 2^53 in magnitude, rounded
    beyond. *)
Definition float_of_int (z : Z) : Float :=
  if Z.abs z <=? 2 ^ 53 then Fin (inject_Z z) else round64 (inject_Z z).

(** IEEE division of binary64 values. *)
Definition fdiv (x y : Float) : Float :=
  match x, y with
  | NaN, _ | _, NaN => NaN
  | Inf _, Inf _ => NaN
  | Inf s, Fin b => Inf (xorb s (Qnum b <? 0))
  | Fin _, Inf _ => Fin 0
  | Fin a, Fin b =>
      if Qnum b =? 0 then (if Qnum a =? 0 then NaN else Inf (Qnum a <? 0))
      else round64 (a / b)
  end.

(** A 64-bit two's complement integer: what is left of an int64
    product. *)
Definition wrap64 (z : Z) : Z := (z + 2 ^ 63) mod 2 ^ 64 - 2 ^ 63.

(** [int(a / f)] as Python computes it, for an int [a] of at most 2^53
    in magnitude and a number [f] given by its value: the quotient is the
    correctly rounded binary64, for an int as for a float divisor. *)
Definition int_truediv (a : Z) (f : Q) : Result Z :=
  if Qnum f =? 0 then Raise (ZeroDivisionError "division by zero")
  else int_of_float (round64 (inject_Z a / f)).

(** The value of a float literal: the binary64 nearest to the decimal
    written. *)
Definition float_literal (q : Q) : Q :=
  match round64 q with
  | Fin v => v
  | _ => 0
  end.

End Py.
Import Py.

(* ================================================================== *)
(** * The two numpy ufuncs used by [compute_level_output_shape]         *)
(* ================================================================== *)

Module np.

(** [np.multiply(t, k)] with [t] a tuple of ints and [k] an int, all
    within int64: the product in int64, which wraps. *)
Definition multiply (t : list Z) (k : Z) : list Z := map (fun p => wrap64 (p * k)) t.

(** One element of [np.divide] on int64 operands: both are converted to
    binary64 and divided there, with the IEEE results for a zero divisor
    (numpy warns, it does not raise). *)
Definition divide1 (x y : Z) : Float := fdiv (float_of_int x) (float_of_int y).

Fixpoint zip_with {A B C} (g : A -> B -> C) (xs : list A) (ys : list B) : list C :=
  match xs, ys with
  | x :: xs', y :: ys' => g x y :: zip_with g xs' ys'
  | _, _ => []
  end.

(** [np.divide(a, b)] on one-dimensional operands, with broadcasting:
    equal lengths go elementwise, a length-one operand is stretched,
    anything else is refused. *)
Definition divide (a b : list Z) : Result (list Float) :=
  if (length a =? length b)%nat then Ok (zip_with divide1 a b)
  else match a, b with
       | _, [y] => Ok (map (fun x => divide1 x y) a)
       | [x], _ => Ok (map (fun y => divide1 x y) b)
       | _, _ => Raise (ValueError "operands could not be broadcast together")
       end.

End np.

(* ================================================================== *)
(** * [compute_level_output_shape]                                      *)
(* ================================================================== *)

(** A Keras static shape: a tuple whose entries are ints or [None]. *)
Definition Shape := list (option Z).

Definition compute_level_output_shape
    (filters depth : Z) (pool_size image_shape : list Z) : Result Shape :=
  rbind
    (if negb (depth =? 0) then
       rbind (np.divide image_shape (np.multiply pool_size depth))
             (fun output_image_shape => rmap int_of_float output_image_shape)
     else
       Ok (map int_of_int image_shape))
    (fun ints => Ok ([None; Some filters] ++ map Some ints)).

(** Whether two one-dimensional operands broadcast against each other. *)
Definition broadcastable (image_shape pool_size : list Z) : Prop :=
  length image_shape = length pool_size
  \/ length pool_size = 1%nat
  \/ length image_shape = 1%nat.

(** The quotient the level-shape computation is said to take:
    [image_shape] divided by [pool_size * depth] in the integers,
    truncated toward zero, element by element where the lengths agree and
    with the single entry stretched where one operand has one entry. *)
Definition quotient_shape (depth : Z) (pool_size image_shape : list Z) : list Z :=
  let quot x p := Z.quot x (p * depth) in
  if (length image_shape =? length pool_size)%nat then
    np.zip_with quot image_shape pool_size
  else
    match image_shape, pool_size with
    | _, [p] => map (fun x => quot x p) image_shape
    | [x], _ => map (fun p => quot x p) pool_size
    | _, _ => []
    end.

(** An entry of [pool_size] whose product with [depth] numpy represents
    exactly and divides by. *)
Definition in_range (depth p : Z) : Prop :=
  p <> 0 /\ Z.abs (p * depth) <= 2 ^ 53.

(* ================================================================== *)
(** * Keras: symbolic tensors, layers and their static shape rules      *)
(* ================================================================== *)

Module keras.

Inductive Padding : Type := valid | same.

(** A symbolic tensor: its static shape ([None] for an unknown entry,
    the batch axis first) and the identity of the graph node. *)
Record Tensor : Type := { tid : nat; tshape : Shape }.

(** Layer objects, with the constructor arguments this module sets;
    every other argument keeps the Keras default (unit strides and
    dilation for [Conv3D], strides equal to the pool size and valid
    padding for [MaxPooling3D], channels-last data format). *)
Inductive Layer : Type :=
| LConv3D (filters : Z) (kernel_size : list Z)
          (activation : option string) (padding : Padding)
| LMaxPooling3D (pool_size : list Z)
| LUpSampling3D (size : list Z)
| LActivation (activation : string)
| LDeconvolution3D (filters : Z) (kernel_size : list Z) (output_shape : Shape)
                   (strides : list Z) (input_shape : Shape).

(** Whether a layer owns trainable weights. *)
Definition has_weights (l : Layer) : bool :=
  match l with
  | LConv3D _ _ _ _ | LDeconvolution3D _ _ _ _ _ => true
  | LMaxPooling3D _ | LUpSampling3D _ | LActivation _ => false
  end.

(** What the framework is asked to do, in program order. *)
Inductive Event : Type :=
| EInput (out : Tensor)
| ECall (l : Layer) (inp out : Tensor)
| EConcatenate (inps : list Tensor) (axis : Z) (out : Tensor)
| EPrint (s : Shape)
| ECompile (lr : Q) (loss : string) (metrics : list string).

Record World : Type := { next_id : nat; journal : list Event }.

Definition init_world : World := {| next_id := 0; journal := [] |}.

(** ** The construction monad: journal plus exceptions *)

Definition M (A : Type) : Type := World -> Result A * World.

Definition ret {A} (a : A) : M A := fun w => (Ok a, w).
Definition raise {A} (e : Exn) : M A := fun w => (Raise e, w).
Definition lift {A} (r : Result A) : M A := fun w => (r, w).
Definition bind {A B} (m : M A) (k : A -> M B) : M B :=
  fun w => match m w with
           | (Ok a, w') => k a w'
           | (Raise e, w') => (Raise e, w')
           end.

Definition emit (e : Event) : M unit :=
  fun w => (Ok tt, {| next_id := next_id w; journal := journal w ++ [e] |}).

Definition fresh (s : Shape) : M Tensor :=
  fun w => (Ok {| tid := next_id w; tshape := s |},
            {| next_id := S (next_id w); journal := journal w |}).

(** ** Shape rules ([compute_output_shape] of each layer) *)

(** [conv_utils.conv_output_length] at dilation 1. *)
Definition conv_output_length
    (input_length : option Z) (filter_size : Z) (padding : Padding) (stride : Z)
    : Result (option Z) :=
  match input_length with
  | None => Ok None
  | Some n =>
      let output_length :=
        match padding with
        | same => n
        | valid => n - filter_size + 1
        end in
      rbind (floordiv (output_length + stride - 1) stride) (fun r => Ok (Some r))
  end.

Definition ndim_error : Exn := ValueError "expected ndim=5".

Definition conv3d_shape (filters : Z) (kernel_size : list Z) (padding : Padding)
    (s : Shape) : Result Shape :=
  match s, kernel_size with
  | [b; d1; d2; d3; ch], [k1; k2; k3] =>
      match ch with
      | None => Raise (ValueError "The channel dimension of the inputs should be defined. Found None.")
      | Some _ =>
          rbind (conv_output_length d1 k1 padding 1) (fun o1 =>
          rbind (conv_output_length d2 k2 padding 1) (fun o2 =>
          rbind (conv_output_length d3 k3 padding 1) (fun o3 =>
          Ok [b; o1; o2; o3; Some filters])))
      end
  | _, _ => Raise ndim_error
  end.

Definition pool3d_shape (pool_size : list Z) (s : Shape) : Result Shape :=
  match s, pool_size with
  | [b; d1; d2; d3; ch], [p1; p2; p3] =>
      rbind (conv_output_length d1 p1 valid p1) (fun o1 =>
      rbind (conv_output_length d2 p2 valid p2) (fun o2 =>
      rbind (conv_output_length d3 p3 valid p3) (fun o3 =>
      Ok [b; o1; o2; o3; ch])))
  | _, _ => Raise ndim_error
  end.

Definition scale_dim (k : Z) (d : option Z) : option Z :=
  match d with
  | Some n => Some (k * n)
  | None => None
  end.

Definition upsampling3d_shape (size : list Z) (s : Shape) : Result Shape :=
  match s, size with
  | [b; d1; d2; d3; ch], [s1; s2; s3] =>
      Ok [b; scale_dim s1 d1; scale_dim s2 d2; scale_dim s3 d3; ch]
  | _, _ => Raise ndim_error
  end.

(** The shape rule of the optional add-on's [Deconvolution3D], as a
    function of its constructor arguments and of the input shape. *)
Definition DeconvRule : Type :=
  Z -> list Z -> Shape -> list Z -> Shape -> Shape -> Result Shape.

(** ** [Concatenate] *)

Definition dim_eqb (a b : option Z) : bool :=
  match a, b with
  | Some x, Some y => x =? y
  | None, None => true
  | _, _ => false
  end.

Fixpoint shape_eqb (s t : Shape) : bool :=
  match s, t with
  | [], [] => true
  | a :: s', b :: t' => dim_eqb a b && shape_eqb s' t'
  | _, _ => false
  end.

(** Python index normalisation for a sequence of length [n]. *)
Definition index (n : nat) (i : Z) : Result nat :=
  let j := if i <? 0 then Z.of_nat n + i else i in
  if (0 <=? j) && (j <? Z.of_nat n) then Ok (Z.to_nat j)
  else Raise (IndexError "list index out of range").

(** [del s[axis]] on a copy of [s]. *)
Definition del_at (axis : Z) (s : Shape) : Result Shape :=
  rbind (index (length s) axis) (fun j => Ok (firstn j s ++ skipn (S j) s)).

Definition get_at (axis : Z) (s : Shape) : Result (option Z) :=
  rbind (index (length s) axis) (fun j => Ok (nth j s None)).

Definition set_at (axis : Z) (v : option Z) (s : Shape) : Result Shape :=
  rbind (index (length s) axis) (fun j => Ok (firstn j s ++ v :: skipn (S j) s)).

(** The loop of [Concatenate.compute_output_shape]: add the entries on
    the concat axis, or give [None] as soon as one is unknown. *)
Fixpoint sum_axis (axis : Z) (acc : option Z) (rest : list Shape) : Result (option Z) :=
  match rest with
  | [] => Ok acc
  | s :: rest' =>
      rbind (get_at axis s) (fun d =>
      match acc, d with
      | Some a, Some n => sum_axis axis (Some (a + n)) rest'
      | _, _ => Ok None
      end)
  end.

Definition concatenate_shape (axis : Z) (shapes : list Shape) : Result Shape :=
  match shapes with
  | [] => Raise (ValueError "A Concatenate layer should be called on a list of inputs")
  | s0 :: rest =>
      rbind (rmap (del_at axis) shapes) (fun reduced =>
      if forallb (shape_eqb (hd [] reduced)) reduced then
        rbind (get_at axis s0) (fun d0 =>
        rbind (sum_axis axis d0 rest) (fun d =>
        set_at axis d s0))
      else
        Raise (ValueError "Concatenate layer requires inputs with matching shapes except for the concat axis."))
  end.

(** ** Layer constructors

    [conv_utils.normalize_tuple] refuses a size that is not a 3-tuple. *)

Definition normalize_tuple (value : list Z) (name : string) : Result (list Z) :=
  if (length value =? 3)%nat then Ok value
  else Raise (ValueError name).

Definition Conv3D (filters : Z) (kernel_size : list Z)
    (activation : option string) (padding : Padding) : M Layer :=
  lift (rbind (normalize_tuple kernel_size "kernel_size") (fun ks =>
        Ok (LConv3D filters ks activation padding))).

Definition MaxPooling3D (pool_size : list Z) : M Layer :=
  lift (rbind (normalize_tuple pool_size "pool_size") (fun ps =>
        Ok (LMaxPooling3D ps))).

Definition UpSampling3D (size : list Z) : M Layer :=
  lift (rbind (normalize_tuple size "size") (fun sz => Ok (LUpSampling3D sz))).

Definition Activation (activation : string) : M Layer :=
  ret (LActivation activation).

(** ** Graph construction *)

(** [Input(shape)]: a placeholder with a free batch axis. *)
Definition Input (shape : list Z) : M Tensor :=
  bind (fresh (None :: map Some shape)) (fun t =>
  bind (emit (EInput t)) (fun _ => ret t)).

Definition layer_shape (deconv : option DeconvRule) (l : Layer) (s : Shape)
    : Result Shape :=
  match l with
  | LConv3D filters kernel_size _ padding => conv3d_shape filters kernel_size padding s
  | LMaxPooling3D pool_size => pool3d_shape pool_size s
  | LUpSampling3D size => upsampling3d_shape size s
  | LActivation _ => Ok s
  | LDeconvolution3D filters kernel_size output_shape strides input_shape =>
      match deconv with
      | Some rule => rule filters kernel_size output_shape strides input_shape s
      | None => Raise (ImportError "No module named keras_contrib")
      end
  end.

(** [layer(x)]: check the input against the layer, create the output
    node. *)
Definition call (deconv : option DeconvRule) (l : Layer) (x : Tensor) : M Tensor :=
  bind (lift (layer_shape deconv l (tshape x))) (fun s =>
  bind (fresh s) (fun out =>
  bind (emit (ECall l x out)) (fun _ => ret out))).

(** [concatenate(inputs, axis=axis)]. *)
Definition concatenate (inps : list Tensor) (axis : Z) : M Tensor :=
  bind (lift (concatenate_shape axis (map tshape inps))) (fun s =>
  bind (fresh s) (fun out =>
  bind (emit (EConcatenate inps axis out)) (fun _ => ret out))).

Definition print (s : Shape) : M unit := emit (EPrint s).

(** A [Model]: its end points and, once compiled, the training set-up
    ([Adam] with its learning rate, the loss and the metrics by name). *)
Record Model : Type := {
  inputs : Tensor;
  outputs : Tensor;
  optimizer : option Q;
  loss : option string;
  metrics : list string
}.

Definition Model_ (inputs outputs : Tensor) : M Model :=
  ret {| inputs := inputs; outputs := outputs;
         optimizer := None; loss := None; metrics := [] |}.

Definition compile (m : Model) (lr : Q) (loss : string) (metrics : list string)
    : M Model :=
  bind (emit (ECompile lr loss metrics)) (fun _ =>
  ret {| inputs := inputs m; outputs := outputs m;
         optimizer := Some lr; loss := Some loss; metrics := metrics |}).

End keras.
Import keras.

Declare Scope py_scope.
Delimit Scope py_scope with py.
Notation "x <- m ;; k" := (bind m (fun x => k))
  (at level 61, m at next level, right associativity) : py_scope.
Notation "m ;; k" := (bind m (fun _ => k))
  (at level 61, right associativity) : py_scope.
Open Scope py_scope.

(* ================================================================== *)
(** * The module under verification                                     *)
(* ================================================================== *)

(** What the module imports from outside the file: the optional add-on
    ([None] when [keras_contrib] cannot be imported), and the input shape
    constant of the preprocessing package. *)
Record Env : Type := {
  keras_contrib : option DeconvRule;
  DATA_SHAPE : list Z
}.

Section Module_unet_3d_model.

Variable env : Env.

(** [Layer(...)(x)]: build the layer, then call it. *)
Definition applied (mk : M Layer) (x : Tensor) : M Tensor :=
  l <- mk ;; call (keras_contrib env) l x.

(** [int(base / downsize_filters_factor)] over the exact quotient.  For
    the base counts of the builder and a positive integer factor this is
    the int Python computes; for other factors see [int_truediv]. *)
Definition int_div (base : Z) (f : Q) : M Z :=
  lift (rbind (truediv base f) (fun q => int_of_float (Fin q))).

Definition get_upconv (depth nb_filters : Z) (pool_size image_shape : list Z)
    (kernel_size strides : list Z) (deconvolution : bool) : M Layer :=
  if deconvolution then
    match keras_contrib env with
    | None =>
        raise (ImportError
          "Install keras_contrib in order to use deconvolution. Otherwise set deconvolution=False.")
    | Some _ =>
        output_shape <- lift (compute_level_output_shape nb_filters depth
                                pool_size image_shape) ;;
        input_shape <- lift (compute_level_output_shape nb_filters (depth + 1)
                               pool_size image_shape) ;;
        ret (LDeconvolution3D nb_filters kernel_size output_shape strides input_shape)
    end
  else
    UpSampling3D pool_size.

Definition relu : option string := Some "relu"%string.

(** The builder nested in [Simple3DModel.__init__]; its keyword
    defaults are supplied at the call site ([default_*] below). *)
Definition unet_model_3d (input_shape : list Z) (downsize_filters_factor : Q)
    (pool_size : list Z) (n_labels : Z) (initial_learning_rate : Q)
    (deconvolution : bool) : M Model :=
  let f := downsize_filters_factor in
  inputs <- Input input_shape ;;
  conv1 <- applied (n <- int_div 32 f ;; Conv3D n [3;3;3] relu same) inputs ;;
  conv1 <- applied (n <- int_div 64 f ;; Conv3D n [3;3;3] relu same) conv1 ;;
  pool1 <- applied (MaxPooling3D pool_size) conv1 ;;

  conv2 <- applied (n <- int_div 64 f ;; Conv3D n [3;3;3] relu same) pool1 ;;
  conv2 <- applied (n <- int_div 128 f ;; Conv3D n [3;3;3] relu same) conv2 ;;
  pool2 <- applied (MaxPooling3D pool_size) conv2 ;;

  conv3 <- applied (n <- int_div 128 f ;; Conv3D n [3;3;3] relu same) pool2 ;;
  conv3 <- applied (n <- int_div 256 f ;; Conv3D n [3;3;3] relu same) conv3 ;;
  print (tshape conv3) ;;
  pool3 <- applied (MaxPooling3D pool_size) conv3 ;;

  conv4 <- applied (n <- int_div 256 f ;; Conv3D n [3;3;3] relu same) pool3 ;;
  conv4 <- applied (n <- int_div 512 f ;; Conv3D n [3;3;3] relu same) conv4 ;;
  print (tshape conv4) ;;

  up5 <- applied (n <- int_div 512 f ;;
                  get_upconv 2 n pool_size (last3 input_shape)
                             [2;2;2] [2;2;2] deconvolution) conv4 ;;
  print (tshape up5) ;;
  up5 <- concatenate [up5; conv3] 4 ;;
  conv5 <- applied (n <- int_div 256 f ;; Conv3D n [3;3;3] relu same) up5 ;;
  conv5 <- applied (n <- int_div 256 f ;; Conv3D n [3;3;3] relu same) conv5 ;;

  up6 <- applied (n <- int_div 256 f ;;
                  get_upconv 1 n pool_size (last3 input_shape)
                             [2;2;2] [2;2;2] deconvolution) conv5 ;;
  up6 <- concatenate [up6; conv2] 4 ;;
  conv6 <- applied (n <- int_div 128 f ;; Conv3D n [3;3;3] relu same) up6 ;;
  conv6 <- applied (n <- int_div 128 f ;; Conv3D n [3;3;3] relu same) conv6 ;;

  up7 <- applied (n <- int_div 128 f ;;
                  get_upconv 0 n pool_size (last3 input_shape)
                             [2;2;2] [2;2;2] deconvolution) conv6 ;;
  up7 <- concatenate [up7; conv1] 4 ;;
  conv7 <- applied (n <- int_div 64 f ;; Conv3D n [3;3;3] relu same) up7 ;;
  conv7 <- applied (n <- int_div 64 f ;; Conv3D n [3;3;3] relu same) conv7 ;;

  conv8 <- applied (Conv3D n_labels [1;1;1] None valid) conv7 ;;
  act <- applied (Activation "sigmoid") conv8 ;;
  model <- Model_ inputs act ;;

  model <- compile model initial_learning_rate "dice_coef_loss" ["dice_coef"%string] ;;

  ret model.

Definition default_downsize_filters_factor : Q := 1.
Definition default_pool_size : list Z := [2; 2; 2].
Definition default_n_labels : Z := 1.
Definition default_initial_learning_rate : Q := 1 # 100.
Definition default_deconvolution : bool := false.

Record Simple3DModel : Type := { model : Model }.

(** [Simple3DModel.__init__]: [self.model = unet_model_3d(input_shape=DATA_SHAPE)]. *)
Definition Simple3DModel__init__ : M Simple3DModel :=
  m <- unet_model_3d (DATA_SHAPE env) default_downsize_filters_factor
         default_pool_size default_n_labels default_initial_learning_rate
         default_deconvolution ;;
  ret {| model := m |}.

Definition _fit {TX Ty : Type} (self : Simple3DModel) (X : TX) (y : Ty) : M unit :=
  raise (NotImplementedError "Must implement '_fit()'").

Definition _predict {TX : Type} (self : Simple3DModel) (X : TX) : M unit :=
  raise (NotImplementedError "Must implement '_predict()'").

End Module_unet_3d_model.

(* ================================================================== *)
(** * Vocabulary of the specification                                   *)
(* ================================================================== *)

(** The value of [int(base / f)] when the division is defined. *)
Definition scaled (base : Z) (f : Q) : Z := trunc (inject_Z base / f).

(** The base filter counts, in the order the convolutions are created:
    eight in the encoder, six in the decoder. *)
Definition encoder_bases : list Z := [32; 64; 64; 128; 128; 256; 256; 512].
Definition decoder_bases : list Z := [256; 256; 128; 128; 64; 64].

(** ** Reading the journal *)

(** A journal entry with the tensors erased: which operation, with
    which arguments. *)
Inductive Op : Type :=
| OInput
| OConv (filters : Z) (kernel_size : list Z)
        (activation : option string) (padding : Padding)
| OPool (pool_size : list Z)
| OUpSampling (size : list Z)
| ODeconvolution (filters : Z)
| OActivation (activation : string)
| OConcat (axis : Z)
| OPrint
| OCompile.

Definition layer_op (l : Layer) : Op :=
  match l with
  | LConv3D n ks a p => OConv n ks a p
  | LMaxPooling3D ps => OPool ps
  | LUpSampling3D sz => OUpSampling sz
  | LDeconvolution3D n _ _ _ _ => ODeconvolution n
  | LActivation a => OActivation a
  end.

Definition op_of (e : Event) : Op :=
  match e with
  | EInput _ => OInput
  | ECall l _ _ => layer_op l
  | EConcatenate _ axis _ => OConcat axis
  | EPrint _ => OPrint
  | ECompile _ _ _ => OCompile
  end.

Definition ops (w : World) : list Op := map op_of (journal w).

Definition op_filters (o : Op) : list Z :=
  match o with
  | OConv n _ _ _ => [n]
  | _ => []
  end.

(** The filter counts of the convolutions, in creation order. *)
Definition conv_filters (w : World) : list Z := flat_map op_filters (ops w).





(** The operations of a complete build, read off the builder's text. *)
Definition architecture (f : Q) (pool_size : list Z) (n_labels : Z)
    (deconvolution : bool) : list Op :=
  let conv base := OConv (scaled base f) [3;3;3] relu same in
  let up base :=
    if deconvolution then ODeconvolution (scaled base f)
    else OUpSampling pool_size in
  [ OInput;
    conv 32; conv 64; OPool pool_size;
    conv 64; conv 128; OPool pool_size;
    conv 128; conv 256; OPrint; OPool pool_size;
    conv 256; conv 512; OPrint;
    up 512; OPrint; OConcat 4; conv 256; conv 256;
    up 256; OConcat 4; conv 128; conv 128;
    up 128; OConcat 4; conv 64; conv 64;
    OConv n_labels [1;1;1] None valid; OActivation "sigmoid";
    OCompile ].

(** ** The journal of a build with plain upsampling

    For pool factors [p1 p2 p3] and an innermost volume [a] x [b] x [c]:
    the tensor created at each step and the calls made, in order. *)

Section Expected.

Variables (f : Q) (p1 p2 p3 : Z) (a b c : Z) (ch n_labels : Z) (lr : Q).

(** The shape at depth [k] of the U (0 outermost, 3 innermost) with
    [n] channels. *)
Definition level_shape (k : nat) (n : Z) : Shape :=
  match k with
  | 0%nat => [None; Some (p1 * (p1 * (p1 * a))); Some (p2 * (p2 * (p2 * b)));
              Some (p3 * (p3 * (p3 * c))); Some n]
  | 1%nat => [None; Some (p1 * (p1 * a)); Some (p2 * (p2 * b));
              Some (p3 * (p3 * c)); Some n]
  | 2%nat => [None; Some (p1 * a); Some (p2 * b); Some (p3 * c); Some n]
  | _ => [None; Some a; Some b; Some c; Some n]
  end.

Definition node_shape (i : nat) : Shape :=
  match i with
  | 0 => level_shape 0 ch
  | 1 => level_shape 0 (scaled 32 f)
  | 2 => level_shape 0 (scaled 64 f)
  | 3 => level_shape 1 (scaled 64 f)
  | 4 => level_shape 1 (scaled 64 f)
  | 5 => level_shape 1 (scaled 128 f)
  | 6 => level_shape 2 (scaled 128 f)
  | 7 => level_shape 2 (scaled 128 f)
  | 8 => level_shape 2 (scaled 256 f)
  | 9 => level_shape 3 (scaled 256 f)
  | 10 => level_shape 3 (scaled 256 f)
  | 11 => level_shape 3 (scaled 512 f)
  | 12 => level_shape 2 (scaled 512 f)
  | 13 => level_shape 2 (scaled 512 f + scaled 256 f)
  | 14 => level_shape 2 (scaled 256 f)
  | 15 => level_shape 2 (scaled 256 f)
  | 16 => level_shape 1 (scaled 256 f)
  | 17 => level_shape 1 (scaled 256 f + scaled 128 f)
  | 18 => level_shape 1 (scaled 128 f)
  | 19 => level_shape 1 (scaled 128 f)
  | 20 => level_shape 0 (scaled 128 f)
  | 21 => level_shape 0 (scaled 128 f + scaled 64 f)
  | 22 => level_shape 0 (scaled 64 f)
  | 23 => level_shape 0 (scaled 64 f)
  | _ => level_shape 0 n_labels
  end%nat.

Definition node (i : nat) : Tensor := {| tid := i; tshape := node_shape i |}.

Definition conv_event (base : Z) (x y : nat) : Event :=
  ECall (LConv3D (scaled base f) [3;3;3] relu same) (node x) (node y).
Definition pool_event (x y : nat) : Event :=
  ECall (LMaxPooling3D [p1; p2; p3]) (node x) (node y).
Definition up_event (x y : nat) : Event :=
  ECall (LUpSampling3D [p1; p2; p3]) (node x) (node y).
Definition concat_event (x skip y : nat) : Event :=
  EConcatenate [node x; node skip] 4 (node y).

Definition unet_journal : list Event :=
  [ EInput (node 0);
    conv_event 32 0 1; conv_event 64 1 2; pool_event 2 3;
    conv_event 64 3 4; conv_event 128 4 5; pool_event 5 6;
    conv_event 128 6 7; conv_event 256 7 8; EPrint (node_shape 8);
    pool_event 8 9;
    conv_event 256 9 10; conv_event 512 10 11; EPrint (node_shape 11);
    up_event 11 12; EPrint (node_shape 12); concat_event 12 8 13;
    conv_event 256 13 14; conv_event 256 14 15;
    up_event 15 16; concat_event 16 5 17;
    conv_event 128 17 18; conv_event 128 18 19;
    up_event 19 20; concat_event 20 2 21;
    conv_event 64 21 22; conv_event 64 22 23;
    ECall (LConv3D n_labels [1;1;1] None valid) (node 23) (node 24);
    ECall (LActivation "sigmoid") (node 24) (node 25);
    ECompile lr "dice_coef_loss" ["dice_coef"%string] ].

Definition unet_world : World := {| next_id := 26; journal := unet_journal |}.

Definition unet_model : Model :=
  {| inputs := node 0; outputs := node 25; optimizer := Some lr;
     loss := Some "dice_coef_loss"%string; metrics := ["dice_coef"%string] |}.

End Expected.

(** The three spatial entries of a channels-last 5-D shape. *)
Definition spatial (s : Shape) : Shape := firstn 3 (skipn 1 s).

(** The calls of a given kind, with their tensors. *)
Definition pooled_inputs (w : World) : list Tensor :=
  flat_map (fun e => match e with
                     | ECall (LMaxPooling3D _) x _ => [x]
                     | _ => []
                     end) (journal w).

Definition upsampled_outputs (w : World) : list Tensor :=
  flat_map (fun e => match e with
                     | ECall (LUpSampling3D _) _ y => [y]
                     | ECall (LDeconvolution3D _ _ _ _ _) _ y => [y]
                     | _ => []
                     end) (journal w).

Definition concatenations (w : World) : list (list Tensor * Z) :=
  flat_map (fun e => match e with
                     | EConcatenate xs axis _ => [(xs, axis)]
                     | _ => []
                     end) (journal w).


(** ** Outcomes of a construction step

    [atomic m os safe]: from any state, [m] either succeeds having
    journalled exactly the operations [os], or raises leaving the state
    as it was; under [safe] the exception is not an [ImportError]. *)
Definition atomic {A} (m : M A) (os : list Op) (safe : Prop) : Prop :=
  forall w0,
    match m w0 with
    | (Ok _, w1) => ops w1 = ops w0 ++ os
    | (Raise e, w1) => w1 = w0 /\ (safe -> forall msg, e <> ImportError msg)
    end.

(** [builds m os safe]: from any state, [m] either succeeds having
    journalled exactly [os], or raises after an initial part of [os]. *)
Definition builds {A} (m : M A) (os : list Op) (safe : Prop) : Prop :=
  forall w0,
    match m w0 with
    | (Ok _, w1) => ops w1 = ops w0 ++ os
    | (Raise e, w1) =>
        (exists done rest, os = done ++ rest /\ ops w1 = ops w0 ++ done)
        /\ (safe -> forall msg, e <> ImportError msg)
    end.

Definition no_import {A} (r : Result A) : Prop :=
  forall msg, r <> Raise (ImportError msg).


(** ** A concrete environment for the examples

    No add-on installed, and a 16 x 16 x 16 single-channel input. *)
Definition demo_env : Env :=
  {| keras_contrib := None; DATA_SHAPE := [16; 16; 16; 1] |}.


(** The state in which the encoder is complete and nothing of the
    decoder exists yet: the first fourteen journal entries. *)
Definition encoder_world (f : Q) (p1 p2 p3 a b c ch : Z) : World :=
  {| next_id := 12;
     journal := firstn 14 (unet_journal f p1 p2 p3 a b c ch 0 0) |}.

Definition import_error_message : string :=
  "Install keras_contrib in order to use deconvolution. Otherwise set deconvolution=False.".

(** ** An environment with the add-on installed

    The add-on is importable.  Constructing its layer, which is all
    that is done with it below, does not consult the shape rule; the one
    given here reports the [output_shape] the layer was constructed
    with. *)
Definition declared_rule : DeconvRule :=
  fun _ _ output_shape _ _ _ => Ok output_shape.

Definition addon_env : Env :=
  {| keras_contrib := Some declared_rule; DATA_SHAPE := [16; 16; 16; 1] |}.

(** The message of the exception [concatenate] raises on operands whose
    shapes differ off the concat axis. *)
Definition concat_error_message : string :=
  "Concatenate layer requires inputs with matching shapes except for the concat axis.".

(** The tensors the concatenations produce, in order. *)
Definition concatenated (w : World) : list Tensor :=
  flat_map (fun e => match e with
                     | EConcatenate _ _ out => [out]
                     | _ => []
                     end) (journal w).

(** The entry on the channel axis (axis 4) of a tensor. *)
Definition channels (t : Tensor) : option Z := nth 4 (tshape t) None.

(** A layer of the framework proper, as opposed to the add-on's. *)
Definition plain (l : Layer) : Prop :=
  match l with
  | LDeconvolution3D _ _ _ _ _ => False
  | _ => True
  end.

(* ================================================================== *)
(** * The builder over binary64                                         *)
(* ================================================================== *)

(** The builder with the computation of [int(base / f)] left open.
    [unet_model_3d] is its instance at the exact quotient; at
    [int_truediv] the filter counts are the ones binary64 gives. *)
Definition unet_model_3d_with (int_quot : Z -> Q -> Result Z) (env : Env)
    (input_shape : list Z) (downsize_filters_factor : Q)
    (pool_size : list Z) (n_labels : Z) (initial_learning_rate : Q)
    (deconvolution : bool) : M Model :=
  let f := downsize_filters_factor in
  inputs <- Input input_shape ;;
  conv1 <- applied env (n <- lift (int_quot 32 f) ;; Conv3D n [3;3;3] relu same) inputs ;;
  conv1 <- applied env (n <- lift (int_quot 64 f) ;; Conv3D n [3;3;3] relu same) conv1 ;;
  pool1 <- applied env (MaxPooling3D pool_size) conv1 ;;

  conv2 <- applied env (n <- lift (int_quot 64 f) ;; Conv3D n [3;3;3] relu same) pool1 ;;
  conv2 <- applied env (n <- lift (int_quot 128 f) ;; Conv3D n [3;3;3] relu same) conv2 ;;
  pool2 <- applied env (MaxPooling3D pool_size) conv2 ;;

  conv3 <- applied env (n <- lift (int_quot 128 f) ;; Conv3D n [3;3;3] relu same) pool2 ;;
  conv3 <- applied env (n <- lift (int_quot 256 f) ;; Conv3D n [3;3;3] relu same) conv3 ;;
  print (tshape conv3) ;;
  pool3 <- applied env (MaxPooling3D pool_size) conv3 ;;

  conv4 <- applied env (n <- lift (int_quot 256 f) ;; Conv3D n [3;3;3] relu same) pool3 ;;
  conv4 <- applied env (n <- lift (int_quot 512 f) ;; Conv3D n [3;3;3] relu same) conv4 ;;
  print (tshape conv4) ;;

  up5 <- applied env (n <- lift (int_quot 512 f) ;;
                  get_upconv env 2 n pool_size (last3 input_shape)
                             [2;2;2] [2;2;2] deconvolution) conv4 ;;
  print (tshape up5) ;;
  up5 <- concatenate [up5; conv3] 4 ;;
  conv5 <- applied env (n <- lift (int_quot 256 f) ;; Conv3D n [3;3;3] relu same) up5 ;;
  conv5 <- applied env (n <- lift (int_quot 256 f) ;; Conv3D n [3;3;3] relu same) conv5 ;;

  up6 <- applied env (n <- lift (int_quot 256 f) ;;
                  get_upconv env 1 n pool_size (last3 input_shape)
                             [2;2;2] [2;2;2] deconvolution) conv5 ;;
  up6 <- concatenate [up6; conv2] 4 ;;
  conv6 <- applied env (n <- lift (int_quot 128 f) ;; Conv3D n [3;3;3] relu same) up6 ;;
  conv6 <- applied env (n <- lift (int_quot 128 f) ;; Conv3D n [3;3;3] relu same) conv6 ;;

  up7 <- applied env (n <- lift (int_quot 128 f) ;;
                  get_upconv env 0 n pool_size (last3 input_shape)
                             [2;2;2] [2;2;2] deconvolution) conv6 ;;
  up7 <- concatenate [up7; conv1] 4 ;;
  conv7 <- applied env (n <- lift (int_quot 64 f) ;; Conv3D n [3;3;3] relu same) up7 ;;
  conv7 <- applied env (n <- lift (int_quot 64 f) ;; Conv3D n [3;3;3] relu same) conv7 ;;

  conv8 <- applied env (Conv3D n_labels [1;1;1] None valid) conv7 ;;
  act <- applied env (Activation "sigmoid") conv8 ;;
  model <- Model_ inputs act ;;

  model <- compile model initial_learning_rate "dice_coef_loss" ["dice_coef"%string] ;;

  ret model.

Definition unet_model_3d_binary64 : Env -> list Z -> Q -> list Z -> Z -> Q -> bool
                                    -> M Model :=
  unet_model_3d_with int_truediv.

(** The int a computation returned, 0 if it raised. *)
Definition value_of (r : Result Z) : Z :=
  match r with
  | Ok n => n
  | Raise _ => 0
  end.

(** The operations of a complete build over [int_quot], each with what
    having made it implies: a scaled layer exists only once its filter
    count has been computed. *)
Definition guarded_architecture (int_quot : Z -> Q -> Result Z) (f : Q)
    (pool_size : list Z) (n_labels : Z) (deconvolution : bool)
    : list (Op * Prop) :=
  let count base := value_of (int_quot base f) in
  let computed base := int_quot base f = Ok (count base) in
  let conv base := (OConv (count base) [3;3;3] relu same, computed base) in
  let up base :=
    (if deconvolution then ODeconvolution (count base) else OUpSampling pool_size,
     computed base) in
  let plain o := (o, True) in
  [ plain OInput;
    conv 32; conv 64; plain (OPool pool_size);
    conv 64; conv 128; plain (OPool pool_size);
    conv 128; conv 256; plain OPrint; plain (OPool pool_size);
    conv 256; conv 512; plain OPrint;
    up 512; plain OPrint; plain (OConcat 4); conv 256; conv 256;
    up 256; plain (OConcat 4); conv 128; conv 128;
    up 128; plain (OConcat 4); conv 64; conv 64;
    plain (OConv n_labels [1;1;1] None valid); plain (OActivation "sigmoid");
    plain OCompile ].

(** [step m g]: from any state, [m] either succeeds having journalled
    the operation of [g], and then the condition of [g] holds, or raises
    leaving the state as it was. *)
Definition step {A} (m : M A) (g : Op * Prop) : Prop :=
  forall w0,
    match m w0 with
    | (Ok _, w1) => ops w1 = ops w0 ++ [fst g] /\ snd g
    | (Raise _, w1) => w1 = w0
    end.

(** [steps m gs]: from any state, [m] either succeeds having journalled
    the operations of [gs], or raises after an initial part of them; the
    conditions of the operations made hold. *)
Definition steps {A} (m : M A) (gs : list (Op * Prop)) : Prop :=
  forall w0,
    match m w0 with
    | (Ok _, w1) =>
        ops w1 = ops w0 ++ map fst gs /\ Forall (fun g => snd g) gs
    | (Raise _, w1) =>
        exists done rest,
          gs = done ++ rest
          /\ ops w1 = ops w0 ++ map fst done
          /\ Forall (fun g => snd g) done
    end.

(** [floor(base / f)], the rule as the specification words it, the
    quotient being Python's: the floor of the binary64 quotient. *)
Definition floor_of_quotient (base : Z) (f : Q) : Result Z :=
  if Qnum f =? 0 then Raise (ZeroDivisionError "division by zero")
  else match round64 (inject_Z base / f) with
       | Fin q => Ok (Qfloor q)
       | Inf _ => Raise (OverflowError "cannot convert float infinity to integer")
       | NaN => Raise (ValueError "cannot convert float NaN to integer")
       end.

(** The binary64 value of 1.6, a factor at which the rounded and the
    exact quotient truncate differently. *)
Definition f_1_6 : Q := float_literal (16 # 10).
(* ================================================================== *)
(** * Arithmetic of the filter schedule                                 *)
(* ================================================================== *)

Lemma Qnum_pos (f : Q) : (0 < f)%Q -> 0 < Qnum f.
Proof. unfold Qlt. simpl. lia. Qed.

Lemma scaled_num_den (base : Z) (f : Q) :
  0 < Qnum f -> scaled base f = Z.quot (base * Zpos (Qden f)) (Qnum f).
Proof.
  destruct f as [n d]. simpl. intros Hn.
  destruct n as [|p|p]; try lia.
  unfold scaled, trunc, Qdiv, Qmult, Qinv. simpl.
  reflexivity.
Qed.


(* ================================================================== *)
(** * Binary64 quotients of integers                                    *)
(* ================================================================== *)

Lemma rne_lower (a b N : Z) : 0 < b -> N * b <= a -> N <= rne a b.
Proof.
  intros Hb H. unfold rne.
  assert (Hq : N <= a / b) by (apply Z.div_le_lower_bound; lia).
  destruct (2 * (a mod b) ?= b); [destruct (Z.even (a / b))| |]; lia.
Qed.

Lemma rne_upper (a b N : Z) : 0 < b -> 2 * a < (2 * N - 1) * b -> rne a b < N.
Proof.
  intros Hb H. unfold rne.
  pose proof (Z.div_mod a b ltac:(lia)) as Hdm.
  pose proof (Z.mod_pos_bound a b Hb) as Hr.
  destruct (Z.compare_spec (2 * (a mod b)) b) as [E|L|G];
    [destruct (Z.even (a / b))| |]; nia.
Qed.

Lemma rne_exact (b q : Z) : 0 < b -> rne (q * b) b = q.
Proof.
  intros Hb. unfold rne.
  rewrite Z.div_mul, Z.mod_mul by lia.
  change (2 * 0) with 0.
  destruct (Z.compare_spec 0 b); [lia | reflexivity | lia].
Qed.

Lemma pow2_pos (e : Z) : 0 <= e -> 0 < 2 ^ e.
Proof. intros H. apply Z.pow_pos_nonneg; lia. Qed.

Lemma ilog2_lower (n d : Z) :
  0 < n -> 0 < d ->
  (0 <= ilog2 n d -> d * 2 ^ ilog2 n d <= n)
  /\ (ilog2 n d < 0 -> d <= n * 2 ^ (- ilog2 n d)).
Proof.
  intros Hn Hd. unfold ilog2.
  set (e0 := Z.log2 n - Z.log2 d).
  destruct (pow2_le e0 n d) eqn:Ht.
  - unfold pow2_le in Ht. destruct (Z.leb_spec 0 e0); split; intros; try lia;
      apply Z.leb_le; exact Ht.
  - pose proof (Z.log2_spec n Hn) as [Hn1 Hn2].
    pose proof (Z.log2_spec d Hd) as [Hd1 Hd2].
    pose proof (Z.log2_nonneg n) as Hln. pose proof (Z.log2_nonneg d) as Hld.
    split; intros He.
    + assert (Hpow : 2 ^ Z.log2 n = 2 ^ Z.succ (Z.log2 d) * 2 ^ (e0 - 1)).
      { rewrite <- Z.pow_add_r by lia. f_equal. unfold e0. lia. }
      pose proof (pow2_pos (e0 - 1) He). nia.
    + assert (Hpow : 2 ^ Z.succ (Z.log2 d) = 2 ^ Z.log2 n * 2 ^ (- (e0 - 1))).
      { rewrite <- Z.pow_add_r by lia. f_equal. unfold e0. lia. }
      pose proof (pow2_pos (- (e0 - 1)) ltac:(lia)). nia.
Qed.

Lemma ilog2_nonneg (n d : Z) : 0 < d -> d <= n -> 0 <= ilog2 n d.
Proof.
  intros Hd Hn. unfold ilog2.
  pose proof (Z.log2_le_mono d n Hn) as Hl.
  destruct (pow2_le (Z.log2 n - Z.log2 d) n d) eqn:Ht; [lia|].
  destruct (Z.eq_dec (Z.log2 n - Z.log2 d) 0) as [E|E]; [|lia].
  rewrite E in Ht. unfold pow2_le in Ht. cbn in Ht.
  apply Z.leb_gt in Ht. lia.
Qed.

Lemma trunc_inject_Z (z : Z) : trunc (inject_Z z) = z.
Proof. unfold trunc, inject_Z. cbn [Qnum Qden]. apply Z.quot_1_r. Qed.

Lemma trunc_frac (m P : Z) :
  0 <= m -> 0 < P -> trunc (m # Z.to_pos P) = m / P.
Proof.
  intros Hm HP. unfold trunc. cbn [Qnum Qden].
  rewrite Z2Pos.id by exact HP. apply Z.quot_div_nonneg; lia.
Qed.

Lemma div_between (a b k : Z) : 0 < b -> k * b <= a -> a < (k + 1) * b -> a / b = k.
Proof.
  intros Hb H1 H2. symmetry. apply (Z.div_unique a b k (a - k * b)); lia.
Qed.

Lemma round_pos_trunc (n d : Z) :
  0 < n <= 2 ^ 53 -> 0 < d ->
  exists q, round_pos n d = Fin q /\ trunc q = n / d.
Proof.
  intros [Hn0 Hn] Hd. unfold round_pos.
  destruct (ilog2_lower n d Hn0 Hd) as [Hlo Hlo'].
  set (e := ilog2 n d) in *.
  destruct (Z.leb_spec 0 (Z.max (e - 52) (-1074))) as [Hu|Hu].
  - (* the quotient is at least 2^52: it is an integer *)
    assert (He : 52 <= e) by lia.
    replace (Z.max (e - 52) (-1074)) with (e - 52) by lia.
    set (u := e - 52) in *.
    assert (Hpu : 0 < 2 ^ u) by (apply pow2_pos; lia).
    assert (Hpe : 2 ^ e = 2 ^ 52 * 2 ^ u).
    { rewrite <- Z.pow_add_r by lia. f_equal. unfold u. lia. }
    specialize (Hlo ltac:(lia)). rewrite Hpe in Hlo.
    assert (HD : d * 2 ^ u = 1 \/ (d * 2 ^ u = 2 /\ n = 2 ^ 53)).
    { change (2 ^ 53) with (2 * 2 ^ 52) in *. change (2 ^ 52) with 4503599627370496 in *.
      nia. }
    assert (Hex : exists m, n = m * (d * 2 ^ u)).
    { destruct HD as [->|[-> ->]]; [exists n; lia | exists (2 ^ 52); reflexivity]. }
    destruct Hex as [m Hm].
    assert (Hrne : rne n (d * 2 ^ u) = m).
    { rewrite Hm at 1. apply rne_exact. nia. }
    rewrite Hrne.
    assert (Hval : m * 2 ^ u <= 2 ^ 53) by nia.
    destruct (Z.leb_spec (2 ^ 1024) (m * 2 ^ u)) as [Hov|_].
    { exfalso. assert (2 ^ 53 < 2 ^ 1024) by (apply Z.pow_lt_mono_r; lia). lia. }
    eexists. split; [reflexivity|].
    rewrite trunc_inject_Z.
    apply Z.div_unique_exact; [lia|]. rewrite Hm. ring.
  - (* the quotient is below 2^52 *)
    set (u := Z.max (e - 52) (-1074)) in *.
    set (P := 2 ^ (- u)).
    assert (HP : 0 < P) by (apply pow2_pos; lia).
    eexists. split; [reflexivity|].
    assert (Hk : (n / d) * d <= n) by (rewrite Z.mul_comm; apply Z.mul_div_le; lia).
    assert (Ht : n < (n / d + 1) * d).
    { pose proof (Z.div_mod n d ltac:(lia)). pose proof (Z.mod_pos_bound n d Hd). nia. }
    assert (Hlow : n / d * P <= rne (n * P) d) by (apply rne_lower; nia).
    assert (Hk0 : 0 <= n / d) by (apply Z.div_pos; lia).
    assert (Hup : rne (n * P) d < (n / d + 1) * P).
    { apply rne_upper; [exact Hd|].
      destruct (Z.lt_ge_cases n d) as [Hlt|Hge].
      - (* quotient below one *)
        rewrite (Z.div_small n d) in * by lia.
        assert (He : e < 0).
        { destruct (Z.lt_ge_cases e 0) as [|He]; [assumption|].
          specialize (Hlo He). pose proof (pow2_pos e He). nia. }
        assert (HP53 : 2 ^ 53 <= P).
        { unfold P. apply Z.pow_le_mono_r; lia. }
        nia.
      - pose proof (ilog2_nonneg n d Hd Hge) as He. fold e in He.
        assert (Hueq : u = e - 52) by lia.
        assert (Hpe : 2 ^ e * P = 2 ^ 52).
        { unfold P. rewrite <- Z.pow_add_r by lia. f_equal. lia. }
        specialize (Hlo He).
        pose proof (pow2_pos e He) as Hpe0.
        assert (Hd2P : d <= 2 * P).
        { change (2 ^ 53) with (2 * 2 ^ 52) in Hn. nia. }
        destruct (Z.eq_dec d (2 * P)) as [Heq|Hne].
        + assert (Hn53 : n = d * 2 ^ e).
          { change (2 ^ 53) with (2 * 2 ^ 52) in Hn. nia. }
          assert (Hq : n / d = 2 ^ e).
          { rewrite Hn53, Z.mul_comm. apply Z.div_mul. lia. }
          rewrite Hq. nia.
        + nia. }
    rewrite trunc_frac by lia.
    apply div_between; lia.
Qed.

Lemma trunc_opp (q : Q) : trunc (- q) = - trunc q.
Proof.
  unfold trunc, Qopp. cbn [Qnum Qden]. apply Z.quot_opp_l. discriminate.
Qed.

(** The binary64 quotient of two integers, the dividend of at most 2^53
    in magnitude, truncates to their integer quotient. *)
Lemma round64_quot (x y : Z) :
  Z.abs x <= 2 ^ 53 -> y <> 0 ->
  int_of_float (round64 (inject_Z x / inject_Z y)) = Ok (Z.quot x y).
Proof.
  intros Hx Hy.
  assert (Hpos : forall a p : positive,
             Z.pos a <= 2 ^ 53 ->
             exists q, round_pos (Z.pos a) (Z.pos p) = Fin q
                       /\ trunc q = Z.quot (Z.pos a) (Z.pos p)).
  { intros a p Ha.
    destruct (round_pos_trunc (Z.pos a) (Z.pos p)) as (q & Hq & Ht); [lia | lia |].
    exists q. split; [exact Hq|]. rewrite Ht. symmetry.
    apply Z.quot_div_nonneg; lia. }
  unfold round64, Qdiv, Qmult, Qinv, inject_Z. cbn [Qnum Qden].
  destruct y as [|p|p]; [contradiction| |]; cbn [Qnum Qden];
    destruct x as [|a|a]; cbn [Z.mul Qnum Qden int_of_float];
    rewrite ?Pos.mul_1_r, ?Pos.mul_1_l.
  - rewrite Z.quot_0_l by discriminate. reflexivity.
  - destruct (Hpos a p ltac:(lia)) as (q & -> & Ht). cbn. rewrite Ht. reflexivity.
  - destruct (Hpos a p ltac:(lia)) as (q & -> & Ht). cbn [fneg int_of_float].
    rewrite trunc_opp, Ht.
    change (Z.neg a) with (- Z.pos a). rewrite Z.quot_opp_l by discriminate.
    reflexivity.
  - rewrite Z.quot_0_l by discriminate. reflexivity.
  - destruct (Hpos a p ltac:(lia)) as (q & -> & Ht). cbn [fneg int_of_float].
    rewrite trunc_opp, Ht.
    change (Z.neg p) with (- Z.pos p). rewrite Z.quot_opp_r by discriminate.
    reflexivity.
  - destruct (Hpos a p ltac:(lia)) as (q & -> & Ht). cbn. rewrite Ht.
    change (Z.neg a) with (- Z.pos a). change (Z.neg p) with (- Z.pos p).
    rewrite Z.quot_opp_opp by discriminate. reflexivity.
Qed.

(** [int(a / k)] for ints: the integer quotient, truncated toward
    zero. *)
Lemma int_truediv_int (a k : Z) :
  Z.abs a <= 2 ^ 53 -> k <> 0 -> int_truediv a (inject_Z k) = Ok (Z.quot a k).
Proof.
  intros Ha Hk. unfold int_truediv. cbn [inject_Z Qnum].
  destruct (Z.eqb_spec k 0) as [E|_]; [contradiction|].
  apply round64_quot; assumption.
Qed.

(* ================================================================== *)
(** * Level output shapes                                               *)
(* ================================================================== *)

Lemma wrap64_small (z : Z) : Z.abs z <= 2 ^ 53 -> wrap64 z = z.
Proof.
  intros H. unfold wrap64.
  change (2 ^ 53) with 9007199254740992 in H.
  change (2 ^ 63) with 9223372036854775808.
  change (2 ^ 64) with 18446744073709551616.
  rewrite Z.mod_small; lia.
Qed.

Lemma float_of_int_small (z : Z) :
  Z.abs z <= 2 ^ 53 -> float_of_int z = Fin (inject_Z z).
Proof.
  intros H. unfold float_of_int.
  destruct (Z.leb_spec (Z.abs z) (2 ^ 53)); [reflexivity | lia].
Qed.

Lemma divide1_exact (x y : Z) :
  Z.abs x <= 2 ^ 53 -> Z.abs y <= 2 ^ 53 -> y <> 0 ->
  int_of_float (np.divide1 x y) = Ok (Z.quot x y).
Proof.
  intros Hx Hy Hy0. unfold np.divide1.
  rewrite !float_of_int_small by assumption.
  unfold fdiv. cbn [inject_Z Qnum].
  destruct (Z.eqb_spec y 0) as [E|_]; [contradiction|].
  apply round64_quot; assumption.
Qed.

Lemma divide1_zero (x : Z) :
  Z.abs x <= 2 ^ 53 -> exists e, int_of_float (np.divide1 x 0) = Raise e.
Proof.
  intros Hx. unfold np.divide1.
  rewrite (float_of_int_small x Hx), (float_of_int_small 0) by discriminate.
  unfold fdiv. cbn [inject_Z Qnum Z.eqb].
  destruct (x =? 0); cbn [int_of_float]; eexists; reflexivity.
Qed.

Lemma divide_same_length (a b : list Z) :
  length a = length b -> np.divide a b = Ok (np.zip_with np.divide1 a b).
Proof.
  intros H. unfold np.divide. rewrite H, Nat.eqb_refl. reflexivity.
Qed.

Lemma divide1_level (depth x p : Z) :
  depth <> 0 -> Z.abs x <= 2 ^ 53 -> in_range depth p ->
  int_of_float (np.divide1 x (wrap64 (p * depth))) = Ok (Z.quot x (p * depth)).
Proof.
  intros Hd Hx [Hp Hpd]. rewrite wrap64_small by exact Hpd.
  apply divide1_exact; [exact Hx | exact Hpd | nia].
Qed.

Section Level.

Variable depth : Z.
Hypothesis depth_nonzero : depth <> 0.

Lemma rmap_zip :
  forall image_shape pool_size,
    length image_shape = length pool_size ->
    Forall (fun x => Z.abs x <= 2 ^ 53) image_shape ->
    Forall (in_range depth) pool_size ->
    rmap int_of_float
         (np.zip_with np.divide1 image_shape (np.multiply pool_size depth))
    = Ok (np.zip_with (fun x p => Z.quot x (p * depth)) image_shape pool_size).
Proof.
  induction image_shape as [|x xs IH]; intros [|p ps] Hlen Hx Hp;
    simpl in Hlen; try discriminate; try reflexivity.
  inversion Hx as [|? ? Hx1 Hxs]; inversion Hp as [|? ? Hp1 Hps]; subst.
  cbn [np.multiply map np.zip_with rmap]. fold (np.multiply ps depth).
  rewrite divide1_level by assumption. cbn [rbind].
  rewrite IH by (assumption || lia). reflexivity.
Qed.

Lemma rmap_stretch_pool (p : Z) :
  in_range depth p ->
  forall image_shape,
    Forall (fun x => Z.abs x <= 2 ^ 53) image_shape ->
    rmap int_of_float
         (map (fun x => np.divide1 x (wrap64 (p * depth))) image_shape)
    = Ok (map (fun x => Z.quot x (p * depth)) image_shape).
Proof.
  intros Hp. induction image_shape as [|x xs IH]; intros Hx; [reflexivity|].
  inversion Hx as [|? ? Hx1 Hxs]; subst. cbn [map rmap].
  rewrite divide1_level by assumption. cbn [rbind].
  rewrite IH by assumption. reflexivity.
Qed.

Lemma rmap_stretch_image (x : Z) :
  Z.abs x <= 2 ^ 53 ->
  forall pool_size,
    Forall (in_range depth) pool_size ->
    rmap int_of_float
         (map (fun y => np.divide1 x y) (np.multiply pool_size depth))
    = Ok (map (fun p => Z.quot x (p * depth)) pool_size).
Proof.
  intros Hx. induction pool_size as [|p ps IH]; intros Hp; [reflexivity|].
  inversion Hp as [|? ? Hp1 Hps]; subst.
  cbn [np.multiply map rmap]. fold (np.multiply ps depth).
  rewrite divide1_level by assumption. cbn [rbind].
  rewrite IH by assumption. reflexivity.
Qed.

(** The level shape at a depth other than 0, for operands that
    broadcast and are in range. *)
Lemma level_quotients (filters : Z) (pool_size image_shape : list Z) :
  broadcastable image_shape pool_size ->
  Forall (fun x => Z.abs x <= 2 ^ 53) image_shape ->
  Forall (in_range depth) pool_size ->
  compute_level_output_shape filters depth pool_size image_shape
  = Ok (None :: Some filters
        :: map Some (quotient_shape depth pool_size image_shape)).
Proof.
  intros Hb Hx Hp. unfold broadcastable in Hb.
  unfold compute_level_output_shape, quotient_shape.
  destruct (Z.eqb_spec depth 0) as [E|_]; [contradiction|]. cbn [negb].
  unfold np.divide.
  assert (Hlm : length (np.multiply pool_size depth) = length pool_size)
    by (unfold np.multiply; apply length_map).
  rewrite Hlm.
  destruct (Nat.eqb_spec (length image_shape) (length pool_size)) as [Hlen|Hlen].
  - cbn [rbind]. rewrite rmap_zip by assumption. reflexivity.
  - destruct pool_size as [|p [|p' ps]].
    + destruct image_shape as [|x [|x' xs]]; cbn [length] in *;
        [lia | reflexivity | destruct Hb as [|[|]]; discriminate].
    + cbn [np.multiply map rbind].
      inversion Hp as [|? ? Hp1 _]; subst.
      destruct image_shape as [|x [|x' xs]]; cbn [rbind];
        rewrite rmap_stretch_pool by assumption; reflexivity.
    + destruct image_shape as [|x [|x' xs]]; cbn [length] in *;
        [destruct Hb as [|[|]]; discriminate
        | | destruct Hb as [H|[H|H]]; try discriminate; lia].
      inversion Hx as [|? ? Hx1 _]; subst.
      change (rbind (rbind (Ok (map (fun y => np.divide1 x y)
                                    (np.multiply (p :: p' :: ps) depth)))
                           (fun o => rmap int_of_float o))
                    (fun ints => Ok ([None; Some filters] ++ map Some ints))
              = Ok (None :: Some filters
                    :: map Some (map (fun q => Z.quot x (q * depth))
                                     (p :: p' :: ps)))).
      cbn [rbind]. rewrite rmap_stretch_image by assumption. reflexivity.
Qed.

End Level.

(** The level shape at any depth: [image_shape] itself at depth 0, its
    quotients elsewhere. *)
Lemma level_shape_value (filters depth : Z) (pool_size image_shape : list Z) :
  (depth <> 0 ->
   broadcastable image_shape pool_size
   /\ Forall (fun x => Z.abs x <= 2 ^ 53) image_shape
   /\ Forall (in_range depth) pool_size) ->
  compute_level_output_shape filters depth pool_size image_shape
  = Ok (None :: Some filters
        :: map Some (if depth =? 0 then image_shape
                     else quotient_shape depth pool_size image_shape)).
Proof.
  intros H.
  destruct (Z.eqb_spec depth 0) as [->|Hd].
  - unfold compute_level_output_shape. cbn [Z.eqb negb rbind app].
    unfold int_of_int. rewrite map_id. reflexivity.
  - destruct (H Hd) as (Hb & Hx & Hp).
    apply level_quotients; assumption.
Qed.

(* ================================================================== *)
(** * Running the builder on well-formed inputs                         *)
(* ================================================================== *)

Lemma bind_ok {A B} (m : M A) (k : A -> M B) (w w' : World) (a : A) :
  m w = (Ok a, w') -> bind m k w = k a w'.
Proof. intros H. unfold bind. rewrite H. reflexivity. Qed.

Lemma int_div_ok (base : Z) (f : Q) (w : World) :
  Qnum f <> 0 -> int_div base f w = (Ok (scaled base f), w).
Proof.
  intros Hf. unfold int_div, lift, truediv.
  destruct (Z.eqb_spec (Qnum f) 0) as [E|_]; [contradiction|]. reflexivity.
Qed.

Lemma conv_length_same (d k : Z) :
  conv_output_length (Some d) k same 1 = Ok (Some d).
Proof.
  unfold conv_output_length, floordiv.
  change (1 =? 0) with false. cbv iota.
  replace (d + 1 - 1) with d by lia. rewrite Z.div_1_r. reflexivity.
Qed.

Lemma conv_length_valid_1 (d : Z) :
  conv_output_length (Some d) 1 valid 1 = Ok (Some d).
Proof.
  unfold conv_output_length, floordiv.
  change (1 =? 0) with false. cbv iota.
  replace (d - 1 + 1 + 1 - 1) with d by lia. rewrite Z.div_1_r. reflexivity.
Qed.

Lemma pool_length (p m : Z) :
  p <> 0 -> conv_output_length (Some (p * m)) p valid p = Ok (Some m).
Proof.
  intros Hp. unfold conv_output_length, floordiv.
  destruct (Z.eqb_spec p 0) as [E|_]; [contradiction|].
  replace (p * m - p + 1 + p - 1) with (m * p) by lia.
  rewrite Z.div_mul by assumption. reflexivity.
Qed.

Local Abbreviation T i s := {| tid := i; tshape := s |}.
Local Abbreviation W n j := {| next_id := n; journal := j |}.

Lemma Input_run (shape : list Z) (n : nat) (j : list Event) :
  Input shape (W n j)
  = (Ok (T n (None :: map Some shape)),
     W (S n) (j ++ [EInput (T n (None :: map Some shape))])).
Proof. reflexivity. Qed.

Lemma call_run (deconv : option DeconvRule) (l : Layer) (x : Tensor) (s : Shape)
    (n : nat) (j : list Event) :
  layer_shape deconv l (tshape x) = Ok s ->
  call deconv l x (W n j) = (Ok (T n s), W (S n) (j ++ [ECall l x (T n s)])).
Proof.
  intros H. unfold call, bind, lift. rewrite H. reflexivity.
Qed.

Section Forward.

Variable env : Env.
Variables (i n : nat) (j : list Event).
Variables (b : option Z) (d1 d2 d3 ch : Z).

Lemma conv_same_run (base : Z) (f : Q) (k1 k2 k3 : Z) (act : option string) :
  Qnum f <> 0 ->
  applied env (m <- int_div base f ;; Conv3D m [k1; k2; k3] act same)
          (T i [b; Some d1; Some d2; Some d3; Some ch]) (W n j)
  = (Ok (T n [b; Some d1; Some d2; Some d3; Some (scaled base f)]),
     W (S n) (j ++ [ECall (LConv3D (scaled base f) [k1; k2; k3] act same)
                          (T i [b; Some d1; Some d2; Some d3; Some ch])
                          (T n [b; Some d1; Some d2; Some d3; Some (scaled base f)])])).
Proof.
  intros Hf. unfold applied.
  rewrite (bind_ok _ _ _ (W n j) (LConv3D (scaled base f) [k1; k2; k3] act same)).
  - apply call_run. cbn [layer_shape tshape conv3d_shape].
    rewrite !conv_length_same. reflexivity.
  - rewrite (bind_ok _ _ _ _ _ (int_div_ok base f _ Hf)). reflexivity.
Qed.

Lemma conv_1x1x1_run (filters : Z) :
  applied env (Conv3D filters [1; 1; 1] None valid)
          (T i [b; Some d1; Some d2; Some d3; Some ch]) (W n j)
  = (Ok (T n [b; Some d1; Some d2; Some d3; Some filters]),
     W (S n) (j ++ [ECall (LConv3D filters [1; 1; 1] None valid)
                          (T i [b; Some d1; Some d2; Some d3; Some ch])
                          (T n [b; Some d1; Some d2; Some d3; Some filters])])).
Proof.
  unfold applied.
  rewrite (bind_ok _ _ _ (W n j) (LConv3D filters [1; 1; 1] None valid))
    by reflexivity.
  apply call_run. cbn [layer_shape tshape conv3d_shape].
  rewrite !conv_length_valid_1. reflexivity.
Qed.

Lemma activation_run (name : string) (s : Shape) :
  applied env (Activation name) (T i s) (W n j)
  = (Ok (T n s), W (S n) (j ++ [ECall (LActivation name) (T i s) (T n s)])).
Proof. reflexivity. Qed.

Lemma pool_run (p1 p2 p3 : Z) (c : option Z) :
  p1 <> 0 -> p2 <> 0 -> p3 <> 0 ->
  applied env (MaxPooling3D [p1; p2; p3])
          (T i [b; Some (p1 * d1); Some (p2 * d2); Some (p3 * d3); c]) (W n j)
  = (Ok (T n [b; Some d1; Some d2; Some d3; c]),
     W (S n) (j ++ [ECall (LMaxPooling3D [p1; p2; p3])
                          (T i [b; Some (p1 * d1); Some (p2 * d2); Some (p3 * d3); c])
                          (T n [b; Some d1; Some d2; Some d3; c])])).
Proof.
  intros H1 H2 H3. unfold applied.
  rewrite (bind_ok _ _ _ (W n j) (LMaxPooling3D [p1; p2; p3])) by reflexivity.
  apply call_run. cbn [layer_shape tshape pool3d_shape].
  rewrite !pool_length by assumption. reflexivity.
Qed.

Lemma upsampling_run (base : Z) (f : Q) (depth p1 p2 p3 : Z)
    (image_shape kernel_size strides : list Z) (c : option Z) :
  Qnum f <> 0 ->
  applied env (m <- int_div base f ;;
               get_upconv env depth m [p1; p2; p3] image_shape
                          kernel_size strides false)
          (T i [b; Some d1; Some d2; Some d3; c]) (W n j)
  = (Ok (T n [b; Some (p1 * d1); Some (p2 * d2); Some (p3 * d3); c]),
     W (S n) (j ++ [ECall (LUpSampling3D [p1; p2; p3])
                          (T i [b; Some d1; Some d2; Some d3; c])
                          (T n [b; Some (p1 * d1); Some (p2 * d2); Some (p3 * d3); c])])).
Proof.
  intros Hf. unfold applied.
  rewrite (bind_ok _ _ _ (W n j) (LUpSampling3D [p1; p2; p3])).
  - apply call_run. reflexivity.
  - rewrite (bind_ok _ _ _ _ _ (int_div_ok base f _ Hf)). reflexivity.
Qed.

End Forward.

Lemma dim_eqb_refl (d : option Z) : dim_eqb d d = true.
Proof. destruct d; simpl; [apply Z.eqb_refl | reflexivity]. Qed.

Lemma shape_eqb_refl (s : Shape) : shape_eqb s s = true.
Proof.
  induction s as [|d s IH]; simpl; [reflexivity|].
  rewrite dim_eqb_refl, IH. reflexivity.
Qed.

Lemma del_at_4 (a b c d e : option Z) :
  del_at 4 [a; b; c; d; e] = Ok [a; b; c; d].
Proof. reflexivity. Qed.

Lemma get_at_4 (a b c d e : option Z) : get_at 4 [a; b; c; d; e] = Ok e.
Proof. reflexivity. Qed.

Lemma set_at_4 (v a b c d e : option Z) :
  set_at 4 v [a; b; c; d; e] = Ok [a; b; c; d; v].
Proof. reflexivity. Qed.

Lemma concatenate_shape_rank5 (b : option Z) (d1 d2 d3 c1 c2 : Z) :
  concatenate_shape 4 [[b; Some d1; Some d2; Some d3; Some c1];
                       [b; Some d1; Some d2; Some d3; Some c2]]
  = Ok [b; Some d1; Some d2; Some d3; Some (c1 + c2)].
Proof.
  unfold concatenate_shape. cbn [rmap].
  rewrite !del_at_4. cbn [rbind hd forallb].
  rewrite shape_eqb_refl. cbn [andb].
  rewrite get_at_4. cbn [rbind sum_axis].
  rewrite get_at_4. cbn [rbind].
  apply set_at_4.
Qed.

Lemma concatenate_run (i1 i2 n : nat) (j : list Event) (b : option Z)
    (d1 d2 d3 c1 c2 : Z) :
  concatenate [T i1 [b; Some d1; Some d2; Some d3; Some c1];
               T i2 [b; Some d1; Some d2; Some d3; Some c2]] 4 (W n j)
  = (Ok (T n [b; Some d1; Some d2; Some d3; Some (c1 + c2)]),
     W (S n) (j ++ [EConcatenate [T i1 [b; Some d1; Some d2; Some d3; Some c1];
                                  T i2 [b; Some d1; Some d2; Some d3; Some c2]] 4
                                 (T n [b; Some d1; Some d2; Some d3; Some (c1 + c2)])])).
Proof.
  unfold concatenate, bind, lift. cbn [map tshape].
  rewrite concatenate_shape_rank5. reflexivity.
Qed.

Lemma print_run (s : Shape) (n : nat) (j : list Event) :
  print s (W n j) = (Ok tt, W n (j ++ [EPrint s])).
Proof. reflexivity. Qed.

Ltac run_line :=
  erewrite bind_ok
    by first [ apply Input_run
             | apply conv_same_run; assumption
             | apply pool_run; assumption
             | apply upsampling_run; assumption
             | apply concatenate_run
             | apply print_run
             | apply conv_1x1x1_run
             | apply activation_run ];
  cbv beta; cbn [map tshape].

(** With plain upsampling, non-zero pool factors and a non-zero filter
    factor, a volume whose sides are the cubes of the pool factors times
    an innermost volume builds, and the build is the expected one. *)
Lemma unet_run (env : Env) (f : Q) (p1 p2 p3 a b c ch n_labels : Z) (lr : Q) :
  Qnum f <> 0 -> p1 <> 0 -> p2 <> 0 -> p3 <> 0 ->
  unet_model_3d env
    [p1 * (p1 * (p1 * a)); p2 * (p2 * (p2 * b)); p3 * (p3 * (p3 * c)); ch]
    f [p1; p2; p3] n_labels lr false init_world
  = (Ok (unet_model f p1 p2 p3 a b c ch n_labels lr),
     unet_world f p1 p2 p3 a b c ch n_labels lr).
Proof.
  intros Hf H1 H2 H3.
  unfold unet_model_3d, init_world. cbv zeta.
  do 29 run_line.
  reflexivity.
Qed.

(* ================================================================== *)
(** * Outcomes of the builder on arbitrary arguments                    *)
(* ================================================================== *)

Lemma ops_emit (w : World) (e : Event) :
  ops {| next_id := next_id w; journal := journal w ++ [e] |} = ops w ++ [op_of e].
Proof. unfold ops. cbn [journal]. rewrite map_app. reflexivity. Qed.

Lemma builds_ret {A} (a : A) (safe : Prop) : builds (ret a) [] safe.
Proof. intros w0. cbn. symmetry. apply app_nil_r. Qed.

Lemma builds_step {A B} (m : M A) (k : A -> M B) (o os : list Op) (safe : Prop) :
  atomic m o safe -> (forall a, builds (k a) os safe) ->
  builds (bind m k) (o ++ os) safe.
Proof.
  intros Hm Hk w0. unfold bind. specialize (Hm w0).
  destruct (m w0) as [[a|e] w1].
  - specialize (Hk a w1). destruct (k a w1) as [[b|e] w2].
    + rewrite Hk, Hm. symmetry. apply app_assoc.
    + destruct Hk as [(done & rest & -> & Hw) Hsafe]. split; [|exact Hsafe].
      exists (o ++ done), rest. split; [apply app_assoc|].
      rewrite Hw, Hm. symmetry. apply app_assoc.
  - destruct Hm as [-> Hsafe]. split; [|exact Hsafe].
    exists [], (o ++ os). split; [reflexivity|]. symmetry. apply app_nil_r.
Qed.

(** ** No step of the plain path raises [ImportError] *)

Lemma no_import_ok {A} (a : A) : no_import (Ok a).
Proof. intros msg. discriminate. Qed.

Lemma no_import_rbind {A B} (r : Result A) (k : A -> Result B) :
  no_import r -> (forall a, no_import (k a)) -> no_import (rbind r k).
Proof.
  intros Hr Hk. destruct r as [a|e]; simpl; [apply Hk|].
  intros msg H. apply (Hr msg). injection H as ->. reflexivity.
Qed.

Lemma no_import_rmap {A B} (g : A -> Result B) (xs : list A) :
  (forall x, no_import (g x)) -> no_import (rmap g xs).
Proof.
  intros Hg. induction xs as [|x xs IH]; simpl; [apply no_import_ok|].
  apply no_import_rbind; [apply Hg|]. intros y.
  apply no_import_rbind; [exact IH|]. intros ys. apply no_import_ok.
Qed.

Lemma no_import_floordiv (a b : Z) : no_import (floordiv a b).
Proof. unfold floordiv. destruct (b =? 0); intros msg; discriminate. Qed.

Lemma no_import_conv_output_length d k p s :
  no_import (conv_output_length d k p s).
Proof.
  unfold conv_output_length. destruct d as [n|]; [|apply no_import_ok].
  apply no_import_rbind; [apply no_import_floordiv|].
  intros r. apply no_import_ok.
Qed.

Lemma no_import_normalize_tuple v name : no_import (normalize_tuple v name).
Proof.
  unfold normalize_tuple. destruct (length v =? 3)%nat; intros msg; discriminate.
Qed.

Lemma no_import_index n i : no_import (index n i).
Proof.
  unfold index.
  destruct ((0 <=? (if i <? 0 then Z.of_nat n + i else i))
            && ((if i <? 0 then Z.of_nat n + i else i) <? Z.of_nat n));
    intros msg; discriminate.
Qed.

Ltac no_import_leaf :=
  first [ apply no_import_ok
        | intros ?msg; discriminate
        | apply no_import_rbind;
          [ first [ apply no_import_conv_output_length
                  | apply no_import_index ]
          | intros ?; no_import_leaf ] ].

Lemma no_import_conv3d_shape n ks p s : no_import (conv3d_shape n ks p s).
Proof.
  unfold conv3d_shape, ndim_error.
  repeat match goal with
         | |- no_import (match ?x with _ => _ end) => destruct x
         end; no_import_leaf.
Qed.

Lemma no_import_pool3d_shape ps s : no_import (pool3d_shape ps s).
Proof.
  unfold pool3d_shape, ndim_error.
  repeat match goal with
         | |- no_import (match ?x with _ => _ end) => destruct x
         end; no_import_leaf.
Qed.

Lemma no_import_upsampling3d_shape sz s : no_import (upsampling3d_shape sz s).
Proof.
  unfold upsampling3d_shape, ndim_error.
  repeat match goal with
         | |- no_import (match ?x with _ => _ end) => destruct x
         end; no_import_leaf.
Qed.

Lemma no_import_sum_axis axis rest : forall acc, no_import (sum_axis axis acc rest).
Proof.
  induction rest as [|s rest IH]; intros acc; simpl; [apply no_import_ok|].
  apply no_import_rbind; [unfold get_at; no_import_leaf|].
  intros d. destruct acc, d; first [apply IH | apply no_import_ok].
Qed.

Lemma no_import_concatenate_shape axis shapes :
  no_import (concatenate_shape axis shapes).
Proof.
  unfold concatenate_shape. destruct shapes as [|s0 rest].
  - intros msg; discriminate.
  - apply no_import_rbind.
    + apply no_import_rmap. intros x. unfold del_at. no_import_leaf.
    + intros reduced.
      destruct (forallb (shape_eqb (hd [] reduced)) reduced);
        [|intros msg; discriminate].
      apply no_import_rbind; [unfold get_at; no_import_leaf|]. intros d0.
      apply no_import_rbind; [apply no_import_sum_axis|]. intros d.
      unfold set_at. no_import_leaf.
Qed.

(** ** Each line of the builder is atomic *)

Lemma atomic_call (deconv : option DeconvRule) (l : Layer) (x : Tensor) (safe : Prop) :
  (safe -> no_import (layer_shape deconv l (tshape x))) ->
  atomic (call deconv l x) [layer_op l] safe.
Proof.
  intros Hs w0. unfold call, bind, lift.
  destruct (layer_shape deconv l (tshape x)) as [s|e].
  - cbn. apply ops_emit.
  - split; [reflexivity|]. intros Hsafe msg ->. exact (Hs Hsafe msg eq_refl).
Qed.

Lemma atomic_applied (env : Env) (mk : M Layer) (r : Result Layer) (x : Tensor)
    (o : Op) (safe : Prop) :
  (forall w, mk w = (r, w)) ->
  (safe -> no_import r) ->
  (forall l, r = Ok l ->
     layer_op l = o /\
     (safe -> no_import (layer_shape (keras_contrib env) l (tshape x)))) ->
  atomic (applied env mk x) [o] safe.
Proof.
  intros Hpure Hr Hl w0. unfold applied, bind. rewrite Hpure.
  destruct r as [l|e].
  - destruct (Hl l eq_refl) as [<- Hshape].
    apply (atomic_call (keras_contrib env) l x safe Hshape w0).
  - split; [reflexivity|]. intros Hsafe msg ->. exact (Hr Hsafe msg eq_refl).
Qed.

Section Lines.

Variable env : Env.
Variable safe : Prop.
Variable x : Tensor.

Lemma atomic_Input (shape : list Z) : atomic (Input shape) [OInput] safe.
Proof. intros w0. cbn. apply (ops_emit {| next_id := S (next_id w0); journal := journal w0 |}). Qed.

Lemma atomic_print (s : Shape) : atomic (print s) [OPrint] safe.
Proof. intros w0. cbn. apply ops_emit. Qed.

Lemma atomic_Model_ (i o : Tensor) : atomic (Model_ i o) [] safe.
Proof. intros w0. cbn. symmetry. apply app_nil_r. Qed.

Lemma atomic_compile (m : Model) (lr : Q) (l : string) (ms : list string) :
  atomic (compile m lr l ms) [OCompile] safe.
Proof. intros w0. cbn. apply ops_emit. Qed.

Lemma atomic_concatenate (xs : list Tensor) (axis : Z) :
  atomic (concatenate xs axis) [OConcat axis] safe.
Proof.
  intros w0. unfold concatenate, bind, lift.
  pose proof (no_import_concatenate_shape axis (map tshape xs)) as Hn.
  destruct (concatenate_shape axis (map tshape xs)) as [s|e].
  - cbn. apply ops_emit.
  - split; [reflexivity|]. intros _ msg ->. exact (Hn msg eq_refl).
Qed.

Lemma atomic_conv (filters k1 k2 k3 : Z) (act : option string) (pad : Padding) :
  atomic (applied env (Conv3D filters [k1; k2; k3] act pad) x)
         [OConv filters [k1; k2; k3] act pad] safe.
Proof.
  apply atomic_applied with (r := Ok (LConv3D filters [k1; k2; k3] act pad)).
  - reflexivity.
  - intros _. apply no_import_ok.
  - intros l [= <-]. split; [reflexivity|].
    intros _. apply no_import_conv3d_shape.
Qed.

Lemma atomic_scaled_conv (base : Z) (f : Q) (k1 k2 k3 : Z)
    (act : option string) (pad : Padding) :
  atomic (applied env (n <- int_div base f ;; Conv3D n [k1; k2; k3] act pad) x)
         [OConv (scaled base f) [k1; k2; k3] act pad] safe.
Proof.
  apply atomic_applied
    with (r := if Qnum f =? 0 then Raise (ZeroDivisionError "division by zero")
               else Ok (LConv3D (scaled base f) [k1; k2; k3] act pad)).
  - intros w. unfold bind, int_div, lift, truediv.
    destruct (Qnum f =? 0); reflexivity.
  - intros _. destruct (Qnum f =? 0); intros msg; discriminate.
  - intros l. destruct (Qnum f =? 0); [discriminate|]. intros [= <-].
    split; [reflexivity|]. intros _. apply no_import_conv3d_shape.
Qed.

Lemma atomic_pool (pool_size : list Z) :
  atomic (applied env (MaxPooling3D pool_size) x) [OPool pool_size] safe.
Proof.
  apply atomic_applied
    with (r := rbind (normalize_tuple pool_size "pool_size")
                     (fun ps => Ok (LMaxPooling3D ps))).
  - reflexivity.
  - intros _. apply no_import_rbind; [apply no_import_normalize_tuple|].
    intros a. apply no_import_ok.
  - intros l. unfold normalize_tuple.
    destruct (length pool_size =? 3)%nat; [|discriminate]. intros [= <-].
    split; [reflexivity|]. intros _. apply no_import_pool3d_shape.
Qed.

Lemma atomic_activation (name : string) :
  atomic (applied env (Activation name) x) [OActivation name] safe.
Proof.
  apply atomic_applied with (r := Ok (LActivation name)).
  - reflexivity.
  - intros _. apply no_import_ok.
  - intros l [= <-]. split; [reflexivity|]. intros _. apply no_import_ok.
Qed.

End Lines.

(** The upsampling line: on the learned path the operation is the
    add-on's layer and an [ImportError] is possible; on the plain path
    it is [UpSampling3D] and it is not. *)
Lemma atomic_upconv (env : Env) (x : Tensor) (base : Z) (f : Q) (depth : Z)
    (pool_size image_shape kernel_size strides : list Z) (deconvolution : bool) :
  atomic (applied env (n <- int_div base f ;;
                       get_upconv env depth n pool_size image_shape
                                  kernel_size strides deconvolution) x)
         [if deconvolution then ODeconvolution (scaled base f)
          else OUpSampling pool_size]
         (deconvolution = false).
Proof.
  destruct deconvolution.
  - apply atomic_applied
      with (r := if Qnum f =? 0 then Raise (ZeroDivisionError "division by zero")
                 else match keras_contrib env with
                      | None =>
                          Raise (ImportError
                            "Install keras_contrib in order to use deconvolution. Otherwise set deconvolution=False.")
                      | Some _ =>
                          rbind (compute_level_output_shape (scaled base f) depth
                                   pool_size image_shape) (fun o =>
                          rbind (compute_level_output_shape (scaled base f) (depth + 1)
                                   pool_size image_shape) (fun i =>
                          Ok (LDeconvolution3D (scaled base f) kernel_size o strides i)))
                      end).
    + intros w. unfold bind, int_div, lift, truediv, get_upconv, raise, ret.
      destruct (Qnum f =? 0); [reflexivity|].
      cbn [rbind int_of_float]. fold (scaled base f).
      destruct (keras_contrib env); [|reflexivity].
      destruct (compute_level_output_shape (scaled base f) depth pool_size image_shape);
        [|reflexivity].
      destruct (compute_level_output_shape (scaled base f) (depth + 1) pool_size image_shape);
        reflexivity.
    + intros [=].
    + intros l. destruct (Qnum f =? 0); [discriminate|].
      destruct (keras_contrib env); [|discriminate].
      destruct (compute_level_output_shape (scaled base f) depth pool_size image_shape);
        [|discriminate].
      destruct (compute_level_output_shape (scaled base f) (depth + 1) pool_size image_shape);
        [|discriminate].
      intros [= <-]. split; [reflexivity|]. intros [=].
  - apply atomic_applied
      with (r := if Qnum f =? 0 then Raise (ZeroDivisionError "division by zero")
                 else rbind (normalize_tuple pool_size "size")
                            (fun sz => Ok (LUpSampling3D sz))).
    + intros w. unfold bind, int_div, lift, truediv, get_upconv, UpSampling3D, lift.
      destruct (Qnum f =? 0); reflexivity.
    + intros _. destruct (Qnum f =? 0); [intros msg; discriminate|].
      apply no_import_rbind; [apply no_import_normalize_tuple|].
      intros a. apply no_import_ok.
    + intros l. destruct (Qnum f =? 0); [discriminate|].
      unfold normalize_tuple.
      destruct (length pool_size =? 3)%nat; [|discriminate]. intros [= <-].
      split; [reflexivity|]. intros _. apply no_import_upsampling3d_shape.
Qed.

(** Whatever the arguments, the builder journals the operations of
    [architecture] in order, stopping only by raising; with plain
    upsampling it never raises [ImportError]. *)
Lemma unet_builds (env : Env) (input_shape : list Z) (f : Q) (pool_size : list Z)
    (n_labels : Z) (lr : Q) (deconvolution : bool) :
  builds (unet_model_3d env input_shape f pool_size n_labels lr deconvolution)
         (architecture f pool_size n_labels deconvolution)
         (deconvolution = false).
Proof.
  unfold unet_model_3d, architecture. cbv zeta.
  repeat first
    [ apply builds_ret
    | apply (builds_step _ _ [] _ _ (atomic_Model_ _ _ _)); intros ?
    | match goal with
      | |- builds (bind _ _) (?o :: ?os) _ => change (o :: os) with ([o] ++ os)
      end;
      apply builds_step;
      [ first [ apply atomic_Input | apply atomic_scaled_conv | apply atomic_pool
              | apply atomic_print | apply atomic_upconv | apply atomic_concatenate
              | apply atomic_conv | apply atomic_activation | apply atomic_compile ]
      | intros ? ] ].
Qed.

(** The outcome of a build from the empty journal. *)
Lemma unet_outcome (env : Env) (input_shape : list Z) (f : Q) (pool_size : list Z)
    (n_labels : Z) (lr : Q) (deconvolution : bool) (r : Result Model) (w : World) :
  unet_model_3d env input_shape f pool_size n_labels lr deconvolution init_world
  = (r, w) ->
  (forall m, r = Ok m -> ops w = architecture f pool_size n_labels deconvolution)
  /\ (exists rest, architecture f pool_size n_labels deconvolution = ops w ++ rest)
  /\ (deconvolution = false -> forall msg, r <> Raise (ImportError msg)).
Proof.
  intros H.
  pose proof (unet_builds env input_shape f pool_size n_labels lr deconvolution
                init_world) as B.
  rewrite H in B. destruct r as [m|e].
  - change (ops init_world) with (@nil Op) in B. cbn [app] in B.
    split; [intros _ _; exact B|]. split.
    + exists []. rewrite B. symmetry. apply app_nil_r.
    + intros _ msg. discriminate.
  - destruct B as [(done & rest & Harch & Hw) Hsafe].
    change (ops init_world) with (@nil Op) in Hw. cbn [app] in Hw.
    split; [intros m; discriminate|]. split.
    + exists rest. rewrite Hw. exact Harch.
    + intros Hd msg [= ->]. exact (Hsafe Hd msg eq_refl).
Qed.

Lemma cube_of_two (x : Z) : (8 | x) -> exists a, x = 2 * (2 * (2 * a)).
Proof. intros [k ->]. exists k. lia. Qed.

(** The build of a volume whose sides are multiples of 8, with the
    default pool size and plain upsampling. *)
Lemma unet_run_8 (env : Env) (x y z ch : Z) (f : Q) (n_labels : Z) (lr : Q) :
  Qnum f <> 0 -> (8 | x) -> (8 | y) -> (8 | z) ->
  exists a b c,
    x = 2 * (2 * (2 * a)) /\ y = 2 * (2 * (2 * b)) /\ z = 2 * (2 * (2 * c)) /\
    unet_model_3d env [x; y; z; ch] f [2; 2; 2] n_labels lr false init_world
    = (Ok (unet_model f 2 2 2 a b c ch n_labels lr),
       unet_world f 2 2 2 a b c ch n_labels lr).
Proof.
  intros Hf Hx Hy Hz.
  destruct (cube_of_two x Hx) as [a ->].
  destruct (cube_of_two y Hy) as [b ->].
  destruct (cube_of_two z Hz) as [c ->].
  exists a, b, c. repeat split.
  apply unet_run; (exact Hf || discriminate).
Qed.


(* ================================================================== *)
(** * The builder over binary64 quotients                               *)
(* ================================================================== *)

Lemma steps_ret {A} (a : A) : steps (ret a) [].
Proof.
  intros w0. cbn. split; [symmetry; apply app_nil_r | constructor].
Qed.

Lemma steps_step {A B} (m : M A) (k : A -> M B) (g : Op * Prop)
    (gs : list (Op * Prop)) :
  step m g -> (forall a, steps (k a) gs) -> steps (bind m k) (g :: gs).
Proof.
  intros Hm Hk w0. unfold bind. specialize (Hm w0).
  destruct (m w0) as [[a|e] w1].
  - destruct Hm as [Hw1 Hg]. specialize (Hk a w1).
    destruct (k a w1) as [[b|e] w2].
    + destruct Hk as [Hw2 Hgs]. split; [|constructor; assumption].
      rewrite Hw2, Hw1, <- app_assoc. reflexivity.
    + destruct Hk as (done & rest & -> & Hw2 & Hdone).
      exists (g :: done), rest. split; [reflexivity|].
      split; [|constructor; assumption].
      rewrite Hw2, Hw1, <- app_assoc. reflexivity.
  - subst w1. exists [], (g :: gs). split; [reflexivity|].
    split; [symmetry; apply app_nil_r | constructor].
Qed.

Lemma steps_silent {A B} (m : M A) (k : A -> M B) (a : A)
    (gs : list (Op * Prop)) :
  (forall w, m w = (Ok a, w)) -> steps (k a) gs -> steps (bind m k) gs.
Proof.
  intros Hm Hk w0. unfold bind. rewrite Hm. apply Hk.
Qed.

Lemma step_of_atomic {A} (m : M A) (o : Op) (safe : Prop) :
  atomic m [o] safe -> step m (o, True).
Proof.
  intros Hm w0. specialize (Hm w0). destruct (m w0) as [[a|e] w1].
  - split; [exact Hm | exact I].
  - apply Hm.
Qed.

Lemma step_applied (env : Env) (mk : M Layer) (r : Result Layer) (x : Tensor)
    (g : Op * Prop) :
  (forall w, mk w = (r, w)) ->
  (forall l, r = Ok l -> layer_op l = fst g /\ snd g) ->
  step (applied env mk x) g.
Proof.
  intros Hpure Hl w0. unfold applied, bind. rewrite Hpure.
  destruct r as [l|e]; [|reflexivity].
  destruct (Hl l eq_refl) as [Ho Hg].
  assert (Hc : atomic (call (keras_contrib env) l x) [layer_op l] False)
    by (apply atomic_call; intros []).
  specialize (Hc w0).
  destruct (call (keras_contrib env) l x w0) as [[t|e] w1].
  - rewrite <- Ho. split; assumption.
  - apply Hc.
Qed.

Section Quotient.

Variable int_quot : Z -> Q -> Result Z.
Variable env : Env.
Variable f : Q.

Lemma step_scaled_conv (x : Tensor) (base : Z) :
  step (applied env (n <- lift (int_quot base f) ;; Conv3D n [3; 3; 3] relu same) x)
       (OConv (value_of (int_quot base f)) [3; 3; 3] relu same,
        int_quot base f = Ok (value_of (int_quot base f))).
Proof.
  apply step_applied
    with (r := rbind (int_quot base f)
                     (fun n => Ok (LConv3D n [3; 3; 3] relu same))).
  - intros w. unfold bind, lift. destruct (int_quot base f); reflexivity.
  - intros l. destruct (int_quot base f) as [n|e]; [|discriminate].
    intros [= <-]. split; reflexivity.
Qed.

Lemma step_upconv (x : Tensor) (base depth : Z)
    (pool_size image_shape kernel_size strides : list Z) (deconvolution : bool) :
  step (applied env (n <- lift (int_quot base f) ;;
                     get_upconv env depth n pool_size image_shape
                                kernel_size strides deconvolution) x)
       (if deconvolution then ODeconvolution (value_of (int_quot base f))
        else OUpSampling pool_size,
        int_quot base f = Ok (value_of (int_quot base f))).
Proof.
  destruct deconvolution.
  - apply step_applied
      with (r := rbind (int_quot base f) (fun n =>
                 match keras_contrib env with
                 | None =>
                     Raise (ImportError
                       "Install keras_contrib in order to use deconvolution. Otherwise set deconvolution=False.")
                 | Some _ =>
                     rbind (compute_level_output_shape n depth pool_size image_shape)
                           (fun o =>
                     rbind (compute_level_output_shape n (depth + 1) pool_size
                                                       image_shape) (fun i =>
                     Ok (LDeconvolution3D n kernel_size o strides i)))
                 end)).
    + intros w. unfold bind, lift, get_upconv, raise, ret.
      destruct (int_quot base f) as [n|e]; [|reflexivity]. cbn [rbind].
      destruct (keras_contrib env); [|reflexivity].
      destruct (compute_level_output_shape n depth pool_size image_shape);
        [|reflexivity].
      destruct (compute_level_output_shape n (depth + 1) pool_size image_shape);
        reflexivity.
    + intros l. destruct (int_quot base f) as [n|e]; [|discriminate]. cbn [rbind].
      destruct (keras_contrib env); [|discriminate].
      destruct (compute_level_output_shape n depth pool_size image_shape);
        [|discriminate].
      destruct (compute_level_output_shape n (depth + 1) pool_size image_shape);
        [|discriminate].
      intros [= <-]. split; reflexivity.
  - apply step_applied
      with (r := rbind (int_quot base f) (fun n =>
                 rbind (normalize_tuple pool_size "size")
                       (fun sz => Ok (LUpSampling3D sz)))).
    + intros w. unfold bind, lift, get_upconv, UpSampling3D, lift.
      destruct (int_quot base f); reflexivity.
    + intros l. destruct (int_quot base f) as [n|e]; [|discriminate]. cbn [rbind].
      unfold normalize_tuple.
      destruct (length pool_size =? 3)%nat; [|discriminate]. intros [= <-].
      split; reflexivity.
Qed.

(** Whatever the arguments, the builder journals the operations of
    [guarded_architecture] in order, stopping only by raising, and each
    scaled layer it has made has the filter count [int_quot] returned. *)
Lemma unet_steps (input_shape pool_size : list Z) (n_labels : Z) (lr : Q)
    (deconvolution : bool) :
  steps (unet_model_3d_with int_quot env input_shape f pool_size n_labels lr
                            deconvolution)
        (guarded_architecture int_quot f pool_size n_labels deconvolution).
Proof.
  unfold unet_model_3d_with, guarded_architecture. cbv zeta.
  repeat first
    [ apply steps_ret
    | eapply steps_silent; [intros ?; reflexivity|]
    | apply steps_step;
      [ first [ apply step_scaled_conv | apply step_upconv
              | apply (step_of_atomic _ _ True);
                first [ apply atomic_Input | apply atomic_pool
                      | apply atomic_print | apply atomic_concatenate
                      | apply atomic_conv | apply atomic_activation
                      | apply atomic_compile ] ]
      | intros ? ] ].
Qed.

End Quotient.

(** What a list of guarded operations says of the filter counts: each
    operation made contributes the counts its guard yields. *)
Lemma guarded_prefix (gs : list (Op * Prop)) (ess : list (list (Result Z))) :
  Forall2 (fun g es => snd g -> map Ok (op_filters (fst g)) = es) gs ess ->
  forall done rest,
    gs = done ++ rest -> Forall (fun g => snd g) done ->
    exists rest',
      concat ess = map Ok (flat_map op_filters (map fst done)) ++ rest'.
Proof.
  induction 1 as [|g es gs ess Hg _ IH]; intros done rest Hsplit Hdone.
  - destruct done; [|discriminate]. exists []. reflexivity.
  - destruct done as [|g' done'].
    + exists (concat (es :: ess)). reflexivity.
    + injection Hsplit as <- Hgs.
      inversion Hdone as [|? ? Hg' Hdone']; subst.
      destruct (IH done' rest eq_refl Hdone') as [rest' Hrest'].
      exists rest'. cbn [concat map flat_map].
      rewrite map_app, <- app_assoc, <- Hrest', (Hg Hg'). reflexivity.
Qed.

Lemma guarded_all (gs : list (Op * Prop)) (ess : list (list (Result Z))) :
  Forall2 (fun g es => snd g -> map Ok (op_filters (fst g)) = es) gs ess ->
  Forall (fun g => snd g) gs ->
  concat ess = map Ok (flat_map op_filters (map fst gs)).
Proof.
  induction 1 as [|g es gs ess Hg _ IH]; intros Hall; [reflexivity|].
  inversion Hall as [|? ? Hg' Hall']; subst.
  cbn [concat map flat_map]. rewrite map_app, <- IH, (Hg Hg') by assumption.
  reflexivity.
Qed.

(** The filter counts the guards of [guarded_architecture] yield. *)
Lemma guarded_architecture_counts (int_quot : Z -> Q -> Result Z) (f : Q)
    (pool_size : list Z) (n_labels : Z) (deconvolution : bool) :
  exists ess,
    Forall2 (fun g es => snd g -> map Ok (op_filters (fst g)) = es)
            (guarded_architecture int_quot f pool_size n_labels deconvolution) ess
    /\ concat ess
       = map (fun base => int_quot base f) (encoder_bases ++ decoder_bases)
         ++ [Ok n_labels].
Proof.
  set (c := fun base : Z => [int_quot base f]).
  set (n := @nil (Result Z)).
  exists [ n; c 32; c 64; n; c 64; c 128; n; c 128; c 256; n; n; c 256; c 512; n;
           n; n; n; c 256; c 256; n; n; c 128; c 128; n; n; c 64; c 64;
           [Ok n_labels]; n; n ].
  split; [|reflexivity].
  unfold guarded_architecture. cbv zeta.
  repeat (apply Forall2_cons;
          [ cbn [fst snd op_filters map];
            first [ intros <-; reflexivity
                  | intros _; destruct deconvolution; reflexivity ] |]).
  apply Forall2_nil.
Qed.

Lemma filter_counts_outcome (int_quot : Z -> Q -> Result Z) (env : Env)
    (input_shape : list Z) (f : Q) (pool_size : list Z) (n_labels : Z) (lr : Q)
    (deconvolution : bool) (r : Result Model) (w : World) :
  unet_model_3d_with int_quot env input_shape f pool_size n_labels lr
                     deconvolution init_world = (r, w) ->
  (exists rest,
     map (fun base => int_quot base f) (encoder_bases ++ decoder_bases)
     ++ [Ok n_labels] = map Ok (conv_filters w) ++ rest)
  /\ (forall m, r = Ok m ->
        map Ok (conv_filters w)
        = map (fun base => int_quot base f) (encoder_bases ++ decoder_bases)
          ++ [Ok n_labels]).
Proof.
  intros Hrun.
  pose proof (unet_steps int_quot env f input_shape pool_size n_labels lr
                deconvolution init_world) as S.
  rewrite Hrun in S.
  destruct (guarded_architecture_counts int_quot f pool_size n_labels deconvolution)
    as (ess & Hess & <-).
  change (ops init_world) with (@nil Op) in S. cbn [app] in S.
  unfold conv_filters. destruct r as [m|e].
  - destruct S as [-> Hall].
    rewrite (guarded_all _ _ Hess Hall).
    split; [exists []; symmetry; apply app_nil_r | reflexivity].
  - destruct S as (done & rest & Hsplit & -> & Hdone).
    split; [|discriminate].
    exact (guarded_prefix _ _ Hess done rest Hsplit Hdone).
Qed.

(** ** Truncation and floor of a binary64 quotient *)

Lemma rne_nonneg (a b : Z) : 0 <= a -> 0 < b -> 0 <= rne a b.
Proof. intros Ha Hb. apply rne_lower; lia. Qed.

Lemma round_pos_nonneg (n d : Z) :
  0 < n -> 0 < d ->
  match round_pos n d with
  | Fin v => 0 <= Qnum v
  | Inf s => s = false
  | NaN => False
  end.
Proof.
  intros Hn Hd. unfold round_pos.
  set (u := Z.max (ilog2 n d - 52) (-1074)).
  destruct (Z.leb_spec 0 u) as [Hu|Hu].
  - pose proof (pow2_pos u Hu) as Hp.
    destruct (2 ^ 1024 <=? rne n (d * 2 ^ u) * 2 ^ u); [reflexivity|].
    cbn [inject_Z Qnum].
    pose proof (rne_nonneg n (d * 2 ^ u) ltac:(lia) ltac:(nia)). nia.
  - cbn [Qnum]. apply rne_nonneg; [|exact Hd].
    pose proof (pow2_pos (- u) ltac:(lia)). nia.
Qed.

Lemma trunc_floor (q : Q) : 0 <= Qnum q -> trunc q = Qfloor q.
Proof.
  intros H. destruct q as [n d]. unfold trunc, Qfloor. cbn [Qnum Qden] in *.
  apply Z.quot_div_nonneg; lia.
Qed.

(** For a base count that is not negative and a positive factor, [int]
    of the quotient is its floor. *)
Lemma int_truediv_floor (base : Z) (f : Q) :
  0 <= base -> (0 < f)%Q -> int_truediv base f = floor_of_quotient base f.
Proof.
  intros Hb Hf. apply Qnum_pos in Hf.
  unfold int_truediv, floor_of_quotient.
  destruct (Qnum f =? 0); [reflexivity|].
  unfold round64.
  assert (Hq : 0 <= Qnum (inject_Z base / f)).
  { destruct f as [fn fd]. cbn [Qnum] in Hf.
    destruct fn as [|p|p]; try lia.
    unfold Qdiv, Qmult, Qinv, inject_Z. cbn [Qnum Qden]. lia. }
  destruct (Qnum (inject_Z base / f)) as [|n|n] eqn:E; [reflexivity| |lia].
  pose proof (round_pos_nonneg (Z.pos n) (Z.pos (Qden (inject_Z base / f)))
                ltac:(lia) ltac:(lia)) as H.
  destruct (round_pos (Z.pos n) (Z.pos (Qden (inject_Z base / f)))) as [v|s|];
    cbn [int_of_float]; [|reflexivity|contradiction].
  rewrite (trunc_floor v H). reflexivity.
Qed.

(* ================================================================== *)
(** * Properties of the builder                                         *)
(* ================================================================== *)





Lemma base_nonneg (base : Z) : In base (encoder_bases ++ decoder_bases) -> 0 <= base.
Proof.
  cbn [encoder_bases decoder_bases app In].
  intros H. repeat (destruct H as [<-|H]; [lia|]). contradiction.
Qed.

(** C2. The convolutions are created with filter count
    [int(base / f)], the quotient being the binary64 one Python
    computes, for the base counts 32, 64, 64, 128, 128, 256, 256, 512 in
    the encoder and 256, 256, 128, 128, 64, 64 in the decoder, in this
    order; the last convolution has [n_labels].  For a positive
    [downsize_filters_factor] f this count is [floor(base / f)], and for
    a positive integer f it is the floor of the exact quotient.  Whatever
    the outcome of the build, the convolutions created so far follow this
    schedule, and a returned model has all of them. *)
Theorem filter_schedule (env : Env) (input_shape : list Z) (f : Q)
    (pool_size : list Z) (n_labels : Z) (lr : Q) (deconvolution : bool)
    (r : Result Model) (w : World) :
  unet_model_3d_binary64 env input_shape f pool_size n_labels lr deconvolution
                         init_world = (r, w) ->
  (forall base, In base (encoder_bases ++ decoder_bases) ->
     ((0 < f)%Q -> int_truediv base f = floor_of_quotient base f)
     /\ (forall k, 0 < k -> f = inject_Z k -> int_truediv base f = Ok (base / k)))
  /\ (exists rest,
        map (fun base => int_truediv base f) (encoder_bases ++ decoder_bases)
        ++ [Ok n_labels] = map Ok (conv_filters w) ++ rest)
  /\ (forall m, r = Ok m ->
        map Ok (conv_filters w)
        = map (fun base => int_truediv base f) (encoder_bases ++ decoder_bases)
          ++ [Ok n_labels]).
Proof.
  intros Hrun. split.
  - intros base Hin. pose proof (base_nonneg base Hin) as Hb. split.
    + intros Hf. apply int_truediv_floor; assumption.
    + intros k Hk ->.
      rewrite int_truediv_int; [| |lia].
      * rewrite Z.quot_div_nonneg by lia. reflexivity.
      * revert Hin. cbn [encoder_bases decoder_bases app In].
        intros H. repeat (destruct H as [<-|H]; [discriminate|]). contradiction.
  - exact (filter_counts_outcome int_truediv env input_shape f pool_size n_labels
             lr deconvolution r w Hrun).
Qed.


Lemma filter_schedule_witness :
  exists m w,
    unet_model_3d_binary64 demo_env [8; 8; 8; 1] f_1_6 [2; 2; 2] 1 (1 # 100) false
                           init_world = (Ok m, w)
    /\ map Ok (conv_filters w)
       = map Ok [20; 40; 40; 80; 80; 160; 160; 320; 160; 160; 80; 80; 40; 40; 1].
Proof.
  pose (run := unet_model_3d_binary64 demo_env [8; 8; 8; 1] f_1_6 [2; 2; 2] 1
                                      (1 # 100) false init_world).
  let v := eval vm_compute in run in
  match v with
  | (Ok ?m, ?w) =>
      assert (Hrun : run = (Ok m, w)) by (vm_compute; reflexivity);
      exists m, w; split; [exact Hrun|];
      destruct (filter_schedule demo_env [8; 8; 8; 1] f_1_6 [2; 2; 2] 1 (1 # 100)
                  false (Ok m) w Hrun) as (_ & _ & Hall);
      rewrite (Hall m eq_refl)
  end.
  vm_compute. reflexivity.
Defined.




(* ================================================================== *)
(** * Properties of the helpers                                         *)
(* ================================================================== *)

(** C4, as the code has it.  At depth 0 the function returns
    [(None, filters)] followed by [image_shape] unchanged.  At a depth
    d > 0, when [pool_size] broadcasts against [image_shape], has no zero
    entry, and the entries of [image_shape] and of [pool_size * d] are at
    most 2^53 in magnitude, it returns [(None, filters)] followed by the
    entries of [image_shape] divided by [pool_size * d], truncated toward
    zero. *)
Theorem compute_level_output_shape_spec
    (filters depth : Z) (pool_size image_shape : list Z) :
  0 <= depth ->
  (0 < depth ->
   broadcastable image_shape pool_size
   /\ Forall (fun x => Z.abs x <= 2 ^ 53) image_shape
   /\ Forall (fun p => p <> 0 /\ Z.abs (p * depth) <= 2 ^ 53) pool_size) ->
  compute_level_output_shape filters depth pool_size image_shape
  = Ok (None :: Some filters
        :: map Some (if depth =? 0 then image_shape
                     else quotient_shape depth pool_size image_shape)).
Proof.
  intros Hd0 H. apply level_shape_value. intros Hd. apply H. lia.
Qed.

Lemma compute_level_output_shape_spec_witness :
  (0 <= 2 /\
   (0 < 2 ->
    broadcastable [64; 64; 64] [2; 2; 2]
    /\ Forall (fun x => Z.abs x <= 2 ^ 53) [64; 64; 64]
    /\ Forall (fun p => p <> 0 /\ Z.abs (p * 2) <= 2 ^ 53) [2; 2; 2])) /\
  compute_level_output_shape 512 2 [2; 2; 2] [64; 64; 64]
  = Ok [None; Some 512; Some 16; Some 16; Some 16].
Proof.
  assert (H0 : 0 <= 2) by discriminate.
  assert (H : 0 < 2 ->
              broadcastable [64; 64; 64] [2; 2; 2]
              /\ Forall (fun x => Z.abs x <= 2 ^ 53) [64; 64; 64]
              /\ Forall (fun p => p <> 0 /\ Z.abs (p * 2) <= 2 ^ 53) [2; 2; 2]).
  { intros _. split; [left; reflexivity|].
    split; repeat constructor; discriminate. }
  split; [exact (conj H0 H)|].
  exact (compute_level_output_shape_spec 512 2 [2; 2; 2] [64; 64; 64] H0 H).
Defined.

(** C4, as stated for every [pool_size] and [image_shape], fails in four
    ways.  Where an entry of [pool_size] is zero, numpy divides to
    infinity and [int] refuses it.  Where the two tuples do not
    broadcast, numpy refuses them.  Where an entry is beyond 2^53, the
    binary64 quotient is not the quotient of the integers: 2^53 + 1 over
    1 comes back as 2^53, and 2^53 over 2^53 + 1 as 1.  Where
    [pool_size * d] leaves int64, the product wraps: 2^62 at depth 4 is
    0. *)
Lemma compute_level_output_shape_not_the_quotient :
  compute_level_output_shape 512 1 [0; 0; 0] [8; 8; 8]
  = Raise (OverflowError "cannot convert float infinity to integer")
  /\ compute_level_output_shape 512 1 [2; 2] [8; 8; 8]
     = Raise (ValueError "operands could not be broadcast together")
  /\ (compute_level_output_shape 512 1 [1; 1; 1] [9007199254740993; 8; 8]
      = Ok [None; Some 512; Some 9007199254740992; Some 8; Some 8]
      /\ Z.quot 9007199254740993 (1 * 1) = 9007199254740993)
  /\ (compute_level_output_shape 512 1 [9007199254740993; 2; 2]
                                 [9007199254740992; 8; 8]
      = Ok [None; Some 512; Some 1; Some 4; Some 4]
      /\ Z.quot 9007199254740992 (9007199254740993 * 1) = 0)
  /\ compute_level_output_shape 512 4 [4611686018427387904; 2; 2] [8; 8; 8]
     = Raise (OverflowError "cannot convert float infinity to integer").
Proof. vm_compute. repeat split. Qed.



(** C6. Whatever the arguments and the state, [_fit] and [_predict]
    raise [NotImplementedError]; neither returns. *)
Theorem hooks_not_implemented :
  (forall (TX Ty : Type) (self : Simple3DModel) (X : TX) (y : Ty) (w : World),
     _fit self X y w = (Raise (NotImplementedError "Must implement '_fit()'"), w))
  /\ (forall (TX : Type) (self : Simple3DModel) (X : TX) (w : World),
        _predict self X w
        = (Raise (NotImplementedError "Must implement '_predict()'"), w)).
Proof. split; reflexivity. Qed.

(** C8. With [deconvolution=False] and a 3-tuple [pool_size],
    [get_upconv] returns [UpSampling3D(size=pool_size)], a layer without
    weights, whatever [depth], [nb_filters], [image_shape],
    [kernel_size], [strides] and the environment are; two calls that
    agree on [pool_size] agree on the result. *)
Theorem get_upconv_plain (env : Env) (depth nb_filters : Z)
    (pool_size image_shape kernel_size strides : list Z) (w : World) :
  length pool_size = 3%nat ->
  get_upconv env depth nb_filters pool_size image_shape kernel_size strides false w
  = (Ok (LUpSampling3D pool_size), w)
  /\ has_weights (LUpSampling3D pool_size) = false
  /\ (forall env' depth' nb_filters' image_shape' kernel_size' strides',
        get_upconv env' depth' nb_filters' pool_size image_shape' kernel_size'
                   strides' false w
        = get_upconv env depth nb_filters pool_size image_shape kernel_size
                     strides false w).
Proof.
  intros Hlen. split; [|split; [reflexivity | reflexivity]].
  unfold get_upconv, UpSampling3D, lift, normalize_tuple.
  rewrite Hlen. reflexivity.
Qed.

Lemma get_upconv_plain_witness :
  length [2; 2; 2] = 3%nat /\
  get_upconv demo_env 2 512 [2; 2; 2] [8; 8; 1] [2; 2; 2] [2; 2; 2] false init_world
  = (Ok (LUpSampling3D [2; 2; 2]), init_world).
Proof.
  split; [reflexivity|].
  exact (proj1 (get_upconv_plain demo_env 2 512 [2; 2; 2] [8; 8; 1] [2; 2; 2]
                  [2; 2; 2] init_world eq_refl)).
Defined.

(** C9. [Simple3DModel.__init__] calls the builder with
    [input_shape=DATA_SHAPE] and every other argument at its default, so
    with [deconvolution] false: whatever the environment (add-on
    installed or not, any [DATA_SHAPE]) and the state, it does not raise
    [ImportError], and no deconvolution layer is ever called. *)
Theorem init_never_import_error (env : Env) (w0 : World) :
  Simple3DModel__init__ env
  = bind (unet_model_3d env (DATA_SHAPE env) 1 [2; 2; 2] 1 (1 # 100) false)
         (fun m => ret {| model := m |})
  /\ (forall msg, fst (Simple3DModel__init__ env w0) <> Raise (ImportError msg))
  /\ (forall n, ~ In (ODeconvolution n)
                     (ops (snd (Simple3DModel__init__ env init_world)))).
Proof.
  split; [reflexivity|]. split.
  - intros msg. unfold Simple3DModel__init__, bind.
    pose proof (unet_builds env (DATA_SHAPE env) default_downsize_filters_factor
                  default_pool_size default_n_labels default_initial_learning_rate
                  default_deconvolution w0) as B.
    destruct (unet_model_3d env (DATA_SHAPE env) default_downsize_filters_factor
                default_pool_size default_n_labels default_initial_learning_rate
                default_deconvolution w0) as [[m|e] w1]; cbn [fst ret].
    + discriminate.
    + destruct B as [_ Hsafe]. intros [= ->]. exact (Hsafe eq_refl msg eq_refl).
  - intros n. unfold Simple3DModel__init__, bind.
    destruct (unet_model_3d env (DATA_SHAPE env) default_downsize_filters_factor
                default_pool_size default_n_labels default_initial_learning_rate
                default_deconvolution init_world) as [r w1] eqn:Hrun.
    destruct (unet_outcome _ _ _ _ _ _ _ _ _ Hrun) as (_ & [rest Hpre] & _).
    assert (Hw : forall o, In o (ops w1) ->
                 In o (architecture default_downsize_filters_factor default_pool_size
                         default_n_labels default_deconvolution)).
    { intros o Ho. rewrite Hpre. apply in_or_app. left. exact Ho. }
    assert (Hno : ~ In (ODeconvolution n) (ops w1)).
    { intros Hin. apply Hw in Hin.
      cbn [architecture default_deconvolution In] in Hin.
      repeat (destruct Hin as [Hin|Hin]; [discriminate Hin|]). exact Hin. }
    destruct r as [m|e]; exact Hno.
Qed.


(* ================================================================== *)
(** * Further properties: the filter counts                             *)
(* ================================================================== *)

Lemma scaled_int (base k : Z) :
  0 <= base -> 0 < k -> scaled base (inject_Z k) = base / k.
Proof.
  intros Hb Hk. rewrite scaled_num_den by exact Hk.
  cbn [inject_Z Qnum Qden]. rewrite Z.mul_1_r.
  apply Z.quot_div_nonneg; lia.
Qed.

Lemma int_truediv_nonneg (base k : Z) :
  0 <= base <= 2 ^ 53 -> 0 < k -> int_truediv base (inject_Z k) = Ok (base / k).
Proof.
  intros Hb Hk. rewrite int_truediv_int by lia.
  rewrite Z.quot_div_nonneg by lia. reflexivity.
Qed.

(** X1. For a positive integer filter factor k and a base count from 0
    to 2^53, [int(base / k)] is computed without an exception, and the
    binary64 quotient truncates to the quotient of the integers: the
    count is never negative, it is 0 exactly when the factor exceeds the
    base count, it does not exceed the base count, and the factor 1
    leaves the base count unchanged.  The exact quotient gives the same
    count. *)
Theorem filter_count_bounds (base k : Z) (w : World) :
  0 < k -> 0 <= base <= 2 ^ 53 ->
  exists n,
    int_truediv base (inject_Z k) = Ok n
    /\ int_div base (inject_Z k) w = (Ok n, w)
    /\ 0 <= n
    /\ (n = 0 <-> base < k)
    /\ n <= base
    /\ (k = 1 -> n = base).
Proof.
  intros Hk Hb. exists (base / k).
  split; [apply int_truediv_nonneg; assumption|].
  split.
  { rewrite int_div_ok by (cbn [inject_Z Qnum]; lia).
    rewrite scaled_int by lia. reflexivity. }
  split; [apply Z.div_pos; lia|]. split; [|split].
  - rewrite Z.div_small_iff by lia. lia.
  - apply Z.div_le_upper_bound; [exact Hk | nia].
  - intros ->. apply Z.div_1_r.
Qed.

Lemma filter_count_bounds_witness :
  (0 < 3 /\ 0 <= 32 <= 2 ^ 53) /\
  exists n,
    int_truediv 32 (inject_Z 3) = Ok n
    /\ int_div 32 (inject_Z 3) init_world = (Ok n, init_world)
    /\ 0 <= n
    /\ (n = 0 <-> 32 < 3)
    /\ n <= 32
    /\ (3 = 1 -> n = 32).
Proof.
  assert (H1 : 0 < 3) by reflexivity.
  assert (H2 : 0 <= 32 <= 2 ^ 53) by (split; discriminate).
  split; [split; assumption|].
  exact (filter_count_bounds 32 3 init_world H1 H2).
Defined.

(** X2. A larger integer filter factor never gives more filters: for
    integers [0 < k <= l] and a base count from 0 to 2^53,
    [int(base / l) <= int(base / k)]. *)
Theorem filter_count_antitone (base k l : Z) :
  0 < k -> k <= l -> 0 <= base <= 2 ^ 53 ->
  exists n m,
    int_truediv base (inject_Z k) = Ok n
    /\ int_truediv base (inject_Z l) = Ok m
    /\ m <= n.
Proof.
  intros Hk Hkl Hb. exists (base / k), (base / l).
  split; [apply int_truediv_nonneg; lia|].
  split; [apply int_truediv_nonneg; lia|].
  apply Z.div_le_compat_l; lia.
Qed.

Lemma filter_count_antitone_witness :
  (0 < 2 /\ 2 <= 3 /\ 0 <= 64 <= 2 ^ 53) /\
  exists n m,
    int_truediv 64 (inject_Z 2) = Ok n
    /\ int_truediv 64 (inject_Z 3) = Ok m
    /\ m <= n.
Proof.
  assert (H1 : 0 < 2) by reflexivity.
  assert (H2 : 2 <= 3) by discriminate.
  assert (H3 : 0 <= 64 <= 2 ^ 53) by (split; discriminate).
  split; [exact (conj H1 (conj H2 H3))|].
  exact (filter_count_antitone 64 2 3 H1 H2 H3).
Defined.

(* ================================================================== *)
(** * Further properties: level shapes and the learned upsampling       *)
(* ================================================================== *)

Lemma rmap_divide_ok (depth : Z) :
  depth <> 0 ->
  forall image_shape pool_size ints,
    length pool_size = length image_shape ->
    Forall (fun x => Z.abs x <= 2 ^ 53) image_shape ->
    Forall (fun p => Z.abs (p * depth) <= 2 ^ 53) pool_size ->
    rmap int_of_float
         (np.zip_with np.divide1 image_shape (np.multiply pool_size depth))
    = Ok ints ->
    Forall (fun p => p <> 0) pool_size.
Proof.
  intros Hd. induction image_shape as [|x xs IH];
    intros [|p ps] ints Hlen Hx Hp Hok;
    simpl in Hlen; try discriminate; [constructor|].
  inversion Hx as [|? ? Hx1 Hxs]; inversion Hp as [|? ? Hp1 Hps]; subst.
  cbn [np.multiply map np.zip_with rmap] in Hok.
  fold (np.multiply ps depth) in Hok.
  destruct (Z.eq_dec p 0) as [->|Hp0].
  - destruct (divide1_zero x Hx1) as [e He].
    change (wrap64 (0 * depth)) with 0 in Hok. rewrite He in Hok.
    discriminate Hok.
  - constructor; [exact Hp0|].
    rewrite divide1_level in Hok by (assumption || (split; assumption)).
    cbn [rbind] in Hok.
    destruct (rmap int_of_float
                (np.zip_with np.divide1 xs (np.multiply ps depth)))
      as [ys|e] eqn:Hys; [|discriminate Hok].
    apply (IH ps ys); [lia | assumption | assumption | exact Hys].
Qed.

Lemma Forall_in_range (depth : Z) (pool_size : list Z) :
  Forall (fun p => p <> 0) pool_size ->
  Forall (fun p => Z.abs (p * depth) <= 2 ^ 53) pool_size ->
  Forall (in_range depth) pool_size.
Proof.
  intros Hnz Hb. rewrite Forall_forall in *.
  intros p Hp. split; [apply Hnz | apply Hb]; exact Hp.
Qed.

(** X3. At a depth other than 0, with as many pool entries as image
    entries, and the image entries and the products [pool_size * depth]
    at most 2^53 in magnitude, [compute_level_output_shape] returns a
    shape exactly when no entry of [pool_size] is zero; with a zero
    entry it raises. *)
Theorem level_shape_returns_iff_nonzero_pool
    (filters depth : Z) (pool_size image_shape : list Z) :
  depth <> 0 -> length pool_size = length image_shape ->
  Forall (fun x => Z.abs x <= 2 ^ 53) image_shape ->
  Forall (fun p => Z.abs (p * depth) <= 2 ^ 53) pool_size ->
  ((exists s, compute_level_output_shape filters depth pool_size image_shape = Ok s)
   <-> Forall (fun p => p <> 0) pool_size).
Proof.
  intros Hd Hlen Hx Hp. split.
  - intros [s Hs]. unfold compute_level_output_shape in Hs.
    destruct (Z.eqb_spec depth 0) as [E|_]; [contradiction|]. cbn [negb] in Hs.
    rewrite divide_same_length in Hs
      by (unfold np.multiply; rewrite length_map; symmetry; exact Hlen).
    cbn [rbind] in Hs.
    destruct (rmap int_of_float
                (np.zip_with np.divide1 image_shape (np.multiply pool_size depth)))
      as [ints|e] eqn:Hi; [|discriminate Hs].
    exact (rmap_divide_ok depth Hd image_shape pool_size ints Hlen Hx Hp Hi).
  - intros Hnz. eexists. apply level_shape_value. intros _.
    split; [left; symmetry; exact Hlen|].
    split; [exact Hx | apply Forall_in_range; assumption].
Qed.

Lemma level_shape_returns_iff_nonzero_pool_witness :
  (2 <> 0 /\ length [2; 0; 2] = length [8; 8; 8]
   /\ Forall (fun x => Z.abs x <= 2 ^ 53) [8; 8; 8]
   /\ Forall (fun p => Z.abs (p * 2) <= 2 ^ 53) [2; 0; 2]) /\
  ((exists s, compute_level_output_shape 512 2 [2; 0; 2] [8; 8; 8] = Ok s)
   <-> Forall (fun p => p <> 0) [2; 0; 2]).
Proof.
  assert (H1 : 2 <> 0) by discriminate.
  assert (H2 : length [2; 0; 2] = length [8; 8; 8]) by reflexivity.
  assert (H3 : Forall (fun x => Z.abs x <= 2 ^ 53) [8; 8; 8])
    by (repeat constructor; discriminate).
  assert (H4 : Forall (fun p => Z.abs (p * 2) <= 2 ^ 53) [2; 0; 2])
    by (repeat constructor; discriminate).
  split; [exact (conj H1 (conj H2 (conj H3 H4)))|].
  exact (level_shape_returns_iff_nonzero_pool 512 2 [2; 0; 2] [8; 8; 8]
           H1 H2 H3 H4).
Defined.

(** X4. With the add-on installed, [get_upconv] on the learned path
    returns a [Deconvolution3D] layer whose [output_shape] is the level
    shape at [depth] and whose [input_shape] is the level shape at
    [depth + 1], both laid out as [(None, nb_filters, ...)], for a depth
    that is not negative, a [pool_size] of three non-zero entries and
    operands at most 2^53 in magnitude.  With the builder's
    [image_shape = input_shape[-3:]] and a 4-tuple
    [(x, y, z, channels)], the three entries divided are
    [(y, z, channels)]. *)
Theorem get_upconv_learned_layer (env : Env) (rule : DeconvRule)
    (depth nb_filters : Z) (pool_size : list Z) (x y z ch : Z)
    (kernel_size strides : list Z) (w : World) :
  keras_contrib env = Some rule ->
  0 <= depth ->
  length pool_size = 3%nat ->
  Forall (fun p => p <> 0 /\ Z.abs (p * (depth + 1)) <= 2 ^ 53) pool_size ->
  Forall (fun v => Z.abs v <= 2 ^ 53) [y; z; ch] ->
  get_upconv env depth nb_filters pool_size (last3 [x; y; z; ch])
             kernel_size strides true w
  = (Ok (LDeconvolution3D nb_filters kernel_size
           (None :: Some nb_filters
            :: map Some (if depth =? 0 then [y; z; ch]
                         else quotient_shape depth pool_size [y; z; ch]))
           strides
           (None :: Some nb_filters
            :: map Some (quotient_shape (depth + 1) pool_size [y; z; ch]))),
     w).
Proof.
  intros Hk Hd Hlen Hp Hx. unfold get_upconv. rewrite Hk.
  change (last3 [x; y; z; ch]) with [y; z; ch].
  unfold bind, lift, ret.
  assert (Hb : broadcastable [y; z; ch] pool_size) by (left; symmetry; exact Hlen).
  assert (Hp0 : Forall (in_range depth) pool_size).
  { rewrite Forall_forall in *. intros p Hin.
    destruct (Hp p Hin) as [Hnz Hbound]. split; [exact Hnz | nia]. }
  assert (Hp1 : Forall (in_range (depth + 1)) pool_size) by exact Hp.
  rewrite (level_shape_value nb_filters depth pool_size [y; z; ch])
    by (intros _; repeat split; assumption).
  rewrite (level_shape_value nb_filters (depth + 1) pool_size [y; z; ch])
    by (intros _; repeat split; assumption).
  destruct (Z.eqb_spec (depth + 1) 0) as [E|_]; [lia|]. reflexivity.
Qed.

Lemma get_upconv_learned_layer_witness :
  (keras_contrib addon_env = Some declared_rule
   /\ 0 <= 2
   /\ length [2; 2; 2] = 3%nat
   /\ Forall (fun p => p <> 0 /\ Z.abs (p * (2 + 1)) <= 2 ^ 53) [2; 2; 2]
   /\ Forall (fun v => Z.abs v <= 2 ^ 53) [64; 64; 1]) /\
  get_upconv addon_env 2 512 [2; 2; 2] (last3 [64; 64; 64; 1])
             [2; 2; 2] [2; 2; 2] true init_world
  = (Ok (LDeconvolution3D 512 [2; 2; 2]
           [None; Some 512; Some 16; Some 16; Some 0] [2; 2; 2]
           [None; Some 512; Some 10; Some 10; Some 0]),
     init_world).
Proof.
  assert (H0 : 0 <= 2) by discriminate.
  assert (Hp : Forall (fun p => p <> 0 /\ Z.abs (p * (2 + 1)) <= 2 ^ 53) [2; 2; 2])
    by (repeat constructor; discriminate).
  assert (Hx : Forall (fun v => Z.abs v <= 2 ^ 53) [64; 64; 1])
    by (repeat constructor; discriminate).
  split; [exact (conj eq_refl (conj H0 (conj eq_refl (conj Hp Hx))))|].
  exact (get_upconv_learned_layer addon_env declared_rule 2 512 [2; 2; 2] 64 64 64 1
           [2; 2; 2] [2; 2; 2] init_world eq_refl H0 eq_refl Hp Hx).
Defined.

Lemma quot_double (m : Z) : Z.quot (2 * m) (2 * 1) = m.
Proof.
  change (2 * 1) with 2. rewrite Z.mul_comm. apply Z.quot_mul. discriminate.
Qed.

Lemma quot_quadruple (m : Z) : Z.quot (2 * (2 * m)) (2 * 2) = m.
Proof.
  change (2 * 2) with 4. replace (2 * (2 * m)) with (m * 4) by lia.
  apply Z.quot_mul. discriminate.
Qed.

Lemma in_range_2 (k : Z) : 1 <= k <= 3 -> Forall (in_range k) [2; 2; 2].
Proof.
  intros Hk. change (2 ^ 53) with 9007199254740992 in *.
  repeat constructor; unfold in_range;
    change (2 ^ 53) with 9007199254740992; lia.
Qed.

(** X5. For a volume whose sides are 8a, 8b, 8c, each at most 2^53, and
    pool size (2,2,2), the spatial entries of
    [compute_level_output_shape] agree with the sizes the poolings
    actually produce at depths 0, 1 and 2; at depth 3 they are the sides
    divided by 6, which for a side of 24 or more is larger than the
    pooled size (the side divided by 8). *)
Theorem level_shape_matches_pooling_to_depth_2 (filters a b c : Z) :
  let image_shape := [2 * (2 * (2 * a)); 2 * (2 * (2 * b)); 2 * (2 * (2 * c))] in
  Forall (fun x => Z.abs x <= 2 ^ 53) image_shape ->
  (forall k, (k <= 2)%nat ->
     exists s,
       compute_level_output_shape filters (Z.of_nat k) [2; 2; 2] image_shape = Ok s
       /\ skipn 2 s = spatial (level_shape 2 2 2 a b c k filters))
  /\ (3 <= a ->
      exists s,
        compute_level_output_shape filters 3 [2; 2; 2] image_shape = Ok s
        /\ nth 2 s None = Some (2 * (2 * (2 * a)) / 6)
        /\ forall n, nth 2 s None = Some n -> a < n).
Proof.
  intros image_shape Hx.
  assert (Hb : broadcastable image_shape [2; 2; 2]) by (left; reflexivity).
  split.
  - intros k Hk. eexists. split.
    + apply level_shape_value. intros Hk0.
      split; [exact Hb|]. split; [exact Hx|]. apply in_range_2. lia.
    + destruct k as [|[|[|k]]]; [| | |lia];
        cbn [Z.of_nat Pos.of_succ_nat Pos.succ Z.eqb Pos.eqb map skipn
             image_shape spatial level_shape firstn];
        unfold quotient_shape;
        cbn [length Nat.eqb np.zip_with image_shape map].
      * reflexivity.
      * rewrite !quot_double. reflexivity.
      * rewrite !quot_quadruple. reflexivity.
  - intros Ha. eexists. split.
    + apply level_shape_value. intros _.
      split; [exact Hb|]. split; [exact Hx|]. apply in_range_2. lia.
    + unfold quotient_shape.
      cbn [Z.eqb Pos.eqb map length Nat.eqb np.zip_with image_shape nth].
      change (2 * 3) with 6.
      rewrite Z.quot_div_nonneg by lia.
      assert (Hq : a + 1 <= 2 * (2 * (2 * a)) / 6)
        by (apply Z.div_le_lower_bound; lia).
      generalize dependent (2 * (2 * (2 * a)) / 6). intros q Hq.
      split; [reflexivity|].
      intros n Hn. assert (n = q) by congruence. lia.
Qed.

Lemma level_shape_matches_pooling_to_depth_2_witness :
  (Forall (fun x => Z.abs x <= 2 ^ 53) [24; 24; 24] /\ 3 <= 3) /\
  exists s,
    compute_level_output_shape 512 3 [2; 2; 2] [24; 24; 24] = Ok s
    /\ nth 2 s None = Some 4
    /\ forall n, nth 2 s None = Some n -> 3 < n.
Proof.
  assert (Hx : Forall (fun x => Z.abs x <= 2 ^ 53) [24; 24; 24])
    by (repeat constructor; discriminate).
  split; [split; [exact Hx | apply Z.le_refl]|].
  exact (proj2 (level_shape_matches_pooling_to_depth_2 512 3 3 3 Hx) (Z.le_refl 3)).
Defined.

(* ================================================================== *)
(** * Further properties: builds that stop early                        *)
(* ================================================================== *)

Lemma bind_raise {A B} (m : M A) (k : A -> M B) (w w' : World) (e : Exn) :
  m w = (Raise e, w') -> bind m k w = (Raise e, w').
Proof. intros H. unfold bind. rewrite H. reflexivity. Qed.

Lemma int_div_zero (base : Z) (f : Q) (w : World) :
  Qnum f = 0 ->
  int_div base f w = (Raise (ZeroDivisionError "division by zero"), w).
Proof.
  intros Hf. unfold int_div, lift, truediv. rewrite Hf. reflexivity.
Qed.

Lemma Qeq_zero_num (f : Q) : (f == 0)%Q <-> Qnum f = 0.
Proof. unfold Qeq. cbn [Qnum Qden]. lia. Qed.

(** X6. With a filter factor equal to zero the builder raises
    [ZeroDivisionError] at the first convolution, whatever the other
    arguments: the input placeholder is the only thing created. *)
Theorem zero_factor_raises (env : Env) (input_shape : list Z) (f : Q)
    (pool_size : list Z) (n_labels : Z) (lr : Q) (deconvolution : bool) :
  (f == 0)%Q ->
  unet_model_3d env input_shape f pool_size n_labels lr deconvolution init_world
  = (Raise (ZeroDivisionError "division by zero"),
     {| next_id := 1;
        journal := [EInput {| tid := 0; tshape := None :: map Some input_shape |}] |}).
Proof.
  intros Hf. apply Qeq_zero_num in Hf.
  unfold unet_model_3d, init_world. cbv zeta.
  rewrite (bind_ok _ _ _ _ _ (Input_run input_shape 0 [])). cbn [app].
  apply bind_raise. unfold applied.
  apply bind_raise. apply bind_raise. apply int_div_zero. exact Hf.
Qed.

Lemma zero_factor_raises_witness :
  (0 == 0)%Q /\
  unet_model_3d demo_env [8; 8; 8; 1] 0 [2; 2; 2] 1 (1 # 100) false init_world
  = (Raise (ZeroDivisionError "division by zero"),
     {| next_id := 1;
        journal := [EInput {| tid := 0; tshape := None :: map Some [8; 8; 8; 1] |}] |}).
Proof.
  split; [reflexivity|].
  exact (zero_factor_raises demo_env [8; 8; 8; 1] 0 [2; 2; 2] 1 (1 # 100) false
           (Qeq_refl 0)).
Defined.

Lemma conv3d_shape_rank (filters : Z) (kernel_size : list Z) (padding : Padding)
    (s : Shape) :
  length s <> 5%nat -> conv3d_shape filters kernel_size padding s = Raise ndim_error.
Proof.
  intros H. unfold conv3d_shape.
  destruct s as [|d0 [|d1 [|d2 [|d3 [|d4 [|d5 s]]]]]]; try reflexivity.
  exfalso. apply H. reflexivity.
Qed.

(** X7. An [input_shape] of positive sizes that is not a 4-tuple is
    refused by the first convolution with a [ValueError] (the
    placeholder does not have the five axes a 3-D convolution needs);
    only the placeholder has been created.  The filter factor is an
    integer from 1 to 32. *)
Theorem input_rank_checked (env : Env) (input_shape : list Z) (k : Z)
    (pool_size : list Z) (n_labels : Z) (lr : Q) (deconvolution : bool) :
  length input_shape <> 4%nat -> Forall (fun d => 0 < d) input_shape ->
  0 < k <= 32 ->
  exists msg,
    unet_model_3d env input_shape (inject_Z k) pool_size n_labels lr deconvolution
                  init_world
    = (Raise (ValueError msg),
       {| next_id := 1;
          journal := [EInput {| tid := 0; tshape := None :: map Some input_shape |}] |}).
Proof.
  intros Hlen _ Hk.
  assert (Hf : Qnum (inject_Z k) <> 0) by (cbn [inject_Z Qnum]; lia).
  eexists.
  unfold unet_model_3d, init_world. cbv zeta.
  rewrite (bind_ok _ _ _ _ _ (Input_run input_shape 0 [])). cbn [app].
  apply bind_raise. unfold applied.
  erewrite bind_ok
    by (rewrite (bind_ok _ _ _ _ _ (int_div_ok 32 (inject_Z k) _ Hf)); reflexivity).
  unfold call. apply bind_raise. unfold lift.
  cbn [layer_shape tshape].
  rewrite conv3d_shape_rank; [reflexivity|].
  cbn [length]. rewrite length_map. lia.
Qed.

Lemma input_rank_checked_witness :
  (length [8; 8; 8] <> 4%nat /\ Forall (fun d => 0 < d) [8; 8; 8] /\ 0 < 1 <= 32) /\
  exists msg,
    unet_model_3d demo_env [8; 8; 8] (inject_Z 1) [2; 2; 2] 1 (1 # 100) false
                  init_world
    = (Raise (ValueError msg),
       {| next_id := 1;
          journal := [EInput {| tid := 0; tshape := None :: map Some [8; 8; 8] |}] |}).
Proof.
  assert (H1 : length [8; 8; 8] <> 4%nat) by discriminate.
  assert (H2 : Forall (fun d => 0 < d) [8; 8; 8]) by (repeat constructor).
  assert (H3 : 0 < 1 <= 32) by (split; [reflexivity | discriminate]).
  split; [exact (conj H1 (conj H2 H3))|].
  exact (input_rank_checked demo_env [8; 8; 8] 1 [2; 2; 2] 1 (1 # 100) false
           H1 H2 H3).
Defined.

(* ================================================================== *)
(** * Further properties: volumes that do not fit the three poolings    *)
(* ================================================================== *)

Lemma pool_length_div (p n : Z) :
  p <> 0 -> conv_output_length (Some n) p valid p = Ok (Some (n / p)).
Proof.
  intros Hp. unfold conv_output_length, floordiv.
  destruct (Z.eqb_spec p 0) as [E|_]; [contradiction|].
  replace (n - p + 1 + p - 1) with n by lia. reflexivity.
Qed.

Lemma pool_run_div (env : Env) (i n : nat) (j : list Event) (b c : option Z)
    (d1 d2 d3 p1 p2 p3 : Z) :
  p1 <> 0 -> p2 <> 0 -> p3 <> 0 ->
  applied env (MaxPooling3D [p1; p2; p3])
          {| tid := i; tshape := [b; Some d1; Some d2; Some d3; c] |}
          {| next_id := n; journal := j |}
  = (Ok {| tid := n; tshape := [b; Some (d1 / p1); Some (d2 / p2); Some (d3 / p3); c] |},
     {| next_id := S n;
        journal := j ++ [ECall (LMaxPooling3D [p1; p2; p3])
                           {| tid := i; tshape := [b; Some d1; Some d2; Some d3; c] |}
                           {| tid := n;
                              tshape := [b; Some (d1 / p1); Some (d2 / p2);
                                         Some (d3 / p3); c] |}] |}).
Proof.
  intros H1 H2 H3. unfold applied.
  rewrite (bind_ok _ _ _ {| next_id := n; journal := j |} (LMaxPooling3D [p1; p2; p3]))
    by reflexivity.
  apply call_run. cbn [layer_shape tshape pool3d_shape].
  rewrite !pool_length_div by assumption. reflexivity.
Qed.

Lemma concatenate_shape_mismatch (b : option Z) (d1 d2 d3 e1 e2 e3 c1 c2 : Z) :
  (d1, d2, d3) <> (e1, e2, e3) ->
  concatenate_shape 4 [[b; Some d1; Some d2; Some d3; Some c1];
                       [b; Some e1; Some e2; Some e3; Some c2]]
  = Raise (ValueError concat_error_message).
Proof.
  intros Hne. unfold concatenate_shape. cbn [rmap].
  rewrite !del_at_4. cbn [rbind hd forallb].
  rewrite shape_eqb_refl. cbn [andb shape_eqb].
  rewrite dim_eqb_refl. cbn [andb dim_eqb].
  destruct (Z.eqb_spec d1 e1) as [->|N1]; [|reflexivity].
  destruct (Z.eqb_spec d2 e2) as [->|N2]; [|reflexivity].
  destruct (Z.eqb_spec d3 e3) as [->|N3]; [|reflexivity].
  exfalso. apply Hne. reflexivity.
Qed.

Lemma concatenate_mismatch (i1 i2 n : nat) (j : list Event) (b : option Z)
    (d1 d2 d3 e1 e2 e3 c1 c2 : Z) :
  (d1, d2, d3) <> (e1, e2, e3) ->
  concatenate [{| tid := i1; tshape := [b; Some d1; Some d2; Some d3; Some c1] |};
               {| tid := i2; tshape := [b; Some e1; Some e2; Some e3; Some c2] |}] 4
              {| next_id := n; journal := j |}
  = (Raise (ValueError concat_error_message), {| next_id := n; journal := j |}).
Proof.
  intros Hne. unfold concatenate, bind, lift. cbn [map tshape].
  rewrite concatenate_shape_mismatch by exact Hne. reflexivity.
Qed.

Ltac run_line_div :=
  erewrite bind_ok
    by first [ apply Input_run
             | apply conv_same_run; assumption
             | apply pool_run_div; assumption
             | apply upsampling_run; assumption
             | apply concatenate_run
             | apply print_run
             | apply conv_1x1x1_run
             | apply activation_run ];
  cbv beta; cbn [map tshape].

Ltac stop_at_concatenate :=
  erewrite bind_raise
    by (apply concatenate_mismatch; assumption);
  reflexivity.

Lemma triple_dec (d1 d2 d3 e1 e2 e3 : Z) :
  {d1 = e1 /\ d2 = e2 /\ d3 = e3} + {(d1, d2, d3) <> (e1, e2, e3)}.
Proof.
  destruct (Z.eq_dec d1 e1) as [->|N1]; [|right; congruence].
  destruct (Z.eq_dec d2 e2) as [->|N2]; [|right; congruence].
  destruct (Z.eq_dec d3 e3) as [->|N3]; [|right; congruence].
  left. repeat split.
Qed.

(** With the default pool size and plain upsampling, a volume one of
    whose sides is not a multiple of 8 gets through the encoder and is
    then refused by one of the three concatenations. *)
Lemma unet_misaligned (env : Env) (x y z ch : Z) (f : Q) (n_labels : Z) (lr : Q) :
  Qnum f <> 0 -> ~ ((8 | x) /\ (8 | y) /\ (8 | z)) ->
  fst (unet_model_3d env [x; y; z; ch] f [2; 2; 2] n_labels lr false init_world)
  = Raise (ValueError concat_error_message).
Proof.
  intros Hf Hnot.
  assert (H2 : 2 <> 0) by discriminate.
  unfold unet_model_3d, init_world. cbv zeta.
  do 16 run_line_div.
  remember (x / 2 / 2 / 2) as x3 eqn:Hx3. remember (x / 2 / 2) as x2 eqn:Hx2.
  remember (x / 2) as x1 eqn:Hx1.
  remember (y / 2 / 2 / 2) as y3 eqn:Hy3. remember (y / 2 / 2) as y2 eqn:Hy2.
  remember (y / 2) as y1 eqn:Hy1.
  remember (z / 2 / 2 / 2) as z3 eqn:Hz3. remember (z / 2 / 2) as z2 eqn:Hz2.
  remember (z / 2) as z1 eqn:Hz1.
  destruct (triple_dec (2 * x3) (2 * y3) (2 * z3) x2 y2 z2) as [(Ex2 & Ey2 & Ez2)|N];
    [|stop_at_concatenate].
  rewrite <- Ex2, <- Ey2, <- Ez2.
  do 4 run_line_div.
  destruct (triple_dec (2 * (2 * x3)) (2 * (2 * y3)) (2 * (2 * z3)) x1 y1 z1)
    as [(Ex1 & Ey1 & Ez1)|N]; [|stop_at_concatenate].
  rewrite <- Ex1, <- Ey1, <- Ez1.
  do 4 run_line_div.
  destruct (triple_dec (2 * (2 * (2 * x3))) (2 * (2 * (2 * y3))) (2 * (2 * (2 * z3)))
                       x y z) as [(Ex & Ey & Ez)|N]; [|stop_at_concatenate].
  exfalso. apply Hnot. repeat split.
  - exists x3. lia.
  - exists y3. lia.
  - exists z3. lia.
Qed.

(** X8. With the default pool size, plain upsampling and an integer
    filter factor from 1 to 32, a 4-tuple [input_shape] whose spatial
    sizes are at least 8 and not all multiples of 8 is not validated by
    the builder: the build raises the [ValueError] of a concatenation
    whose operands disagree, and returns no model. *)
Theorem misaligned_volume_refused (env : Env) (x y z ch k : Z)
    (n_labels : Z) (lr : Q) :
  0 < k <= 32 -> 8 <= x -> 8 <= y -> 8 <= z -> 0 < ch ->
  ~ ((8 | x) /\ (8 | y) /\ (8 | z)) ->
  fst (unet_model_3d env [x; y; z; ch] (inject_Z k) default_pool_size n_labels lr
                     default_deconvolution init_world)
  = Raise (ValueError concat_error_message).
Proof.
  intros Hk _ _ _ _ Hnot.
  assert (Hf : Qnum (inject_Z k) <> 0) by (cbn [inject_Z Qnum]; lia).
  exact (unet_misaligned env x y z ch (inject_Z k) n_labels lr Hf Hnot).
Qed.

Lemma misaligned_volume_refused_witness :
  (0 < 1 <= 32 /\ 8 <= 12 /\ 0 < 1 /\ ~ ((8 | 12) /\ (8 | 12) /\ (8 | 12))) /\
  fst (unet_model_3d demo_env [12; 12; 12; 1] (inject_Z 1) default_pool_size 1
                     (1 # 100) default_deconvolution init_world)
  = Raise (ValueError concat_error_message).
Proof.
  assert (H1 : 0 < 1 <= 32) by (split; [reflexivity | discriminate]).
  assert (H8 : 8 <= 12) by discriminate.
  assert (Hc : 0 < 1) by reflexivity.
  assert (H2 : ~ ((8 | 12) /\ (8 | 12) /\ (8 | 12))).
  { intros [[q Hq] _]. lia. }
  split; [exact (conj H1 (conj H8 (conj Hc H2)))|].
  exact (misaligned_volume_refused demo_env 12 12 12 1 1 1 (1 # 100)
           H1 H8 H8 H8 Hc H2).
Defined.

(* ================================================================== *)
(** * Further properties: builds with other pool sizes                  *)
(* ================================================================== *)

Lemma cube_multiple (p x : Z) :
  (p * p * p | x) -> exists a, x = p * (p * (p * a)).
Proof. intros [k ->]. exists k. ring. Qed.

Lemma unet_run_cubes (env : Env) (p1 p2 p3 x y z ch : Z) (f : Q)
    (n_labels : Z) (lr : Q) :
  Qnum f <> 0 -> p1 <> 0 -> p2 <> 0 -> p3 <> 0 ->
  (p1 * p1 * p1 | x) -> (p2 * p2 * p2 | y) -> (p3 * p3 * p3 | z) ->
  exists a b c,
    x = p1 * (p1 * (p1 * a)) /\ y = p2 * (p2 * (p2 * b)) /\ z = p3 * (p3 * (p3 * c)) /\
    unet_model_3d env [x; y; z; ch] f [p1; p2; p3] n_labels lr false init_world
    = (Ok (unet_model f p1 p2 p3 a b c ch n_labels lr),
       unet_world f p1 p2 p3 a b c ch n_labels lr).
Proof.
  intros Hf H1 H2 H3 Hx Hy Hz.
  destruct (cube_multiple p1 x Hx) as [a ->].
  destruct (cube_multiple p2 y Hy) as [b ->].
  destruct (cube_multiple p3 z Hz) as [c ->].
  exists a, b, c. repeat split.
  apply unet_run; assumption.
Qed.

(** X9. The builder works for any positive pool factors, not only the
    default: with plain upsampling and an integer filter factor from 1
    to 32, a volume of positive sides that are multiples of the cubes of
    the respective pool factors builds, and the model's output has the
    spatial sizes of the input and [n_labels] channels. *)
Theorem any_pool_size_builds (env : Env) (p1 p2 p3 x y z ch k : Z)
    (n_labels : Z) (lr : Q) :
  0 < p1 -> 0 < p2 -> 0 < p3 ->
  0 < x -> 0 < y -> 0 < z -> 0 < ch -> 0 < n_labels ->
  (p1 * p1 * p1 | x) -> (p2 * p2 * p2 | y) -> (p3 * p3 * p3 | z) ->
  0 < k <= 32 ->
  exists m w,
    unet_model_3d env [x; y; z; ch] (inject_Z k) [p1; p2; p3] n_labels lr false
                  init_world
    = (Ok m, w)
    /\ tshape (inputs m) = [None; Some x; Some y; Some z; Some ch]
    /\ tshape (outputs m) = [None; Some x; Some y; Some z; Some n_labels]
    /\ length (pooled_inputs w) = 3%nat
    /\ length (upsampled_outputs w) = 3%nat.
Proof.
  intros H1 H2 H3 _ _ _ _ _ Hx Hy Hz Hk.
  assert (Hf : Qnum (inject_Z k) <> 0) by (cbn [inject_Z Qnum]; lia).
  destruct (unet_run_cubes env p1 p2 p3 x y z ch (inject_Z k) n_labels lr
              Hf ltac:(lia) ltac:(lia) ltac:(lia) Hx Hy Hz)
    as (a & b & c & -> & -> & -> & Hrun).
  exists (unet_model (inject_Z k) p1 p2 p3 a b c ch n_labels lr),
         (unet_world (inject_Z k) p1 p2 p3 a b c ch n_labels lr).
  split; [exact Hrun|]. repeat split.
Qed.

Lemma any_pool_size_builds_witness :
  (0 < 3 /\ 0 < 2 /\ 0 < 1 /\ 0 < 27 /\ 0 < 16 /\ 0 < 5
   /\ (3 * 3 * 3 | 27) /\ (2 * 2 * 2 | 16) /\ (1 * 1 * 1 | 5)
   /\ 0 < 1 <= 32) /\
  exists m w,
    unet_model_3d demo_env [27; 16; 5; 1] (inject_Z 1) [3; 2; 1] 1 (1 # 100) false
                  init_world
    = (Ok m, w)
    /\ tshape (inputs m) = [None; Some 27; Some 16; Some 5; Some 1]
    /\ tshape (outputs m) = [None; Some 27; Some 16; Some 5; Some 1]
    /\ length (pooled_inputs w) = 3%nat
    /\ length (upsampled_outputs w) = 3%nat.
Proof.
  assert (Hx : (3 * 3 * 3 | 27)) by (exists 1; reflexivity).
  assert (Hy : (2 * 2 * 2 | 16)) by (exists 2; reflexivity).
  assert (Hz : (1 * 1 * 1 | 5)) by (exists 5; reflexivity).
  assert (Hk : 0 < 1 <= 32) by (split; [reflexivity | discriminate]).
  split.
  - repeat split; try assumption; try reflexivity; discriminate.
  - exact (any_pool_size_builds demo_env 3 2 1 27 16 5 1 1 1 (1 # 100)
             eq_refl eq_refl eq_refl eq_refl eq_refl eq_refl eq_refl eq_refl
             Hx Hy Hz Hk).
Defined.

(** X10. In such a build each concatenation adds the channels of its
    two operands: for the integer filter factor k the tensors entering
    the decoder convolutions have [512/k + 256/k], [256/k + 128/k] and
    [128/k + 64/k] channels (the quotients of the integers, rounded
    down), and the upsampled operand keeps the channel count of the
    tensor it was upsampled from. *)
Theorem concatenation_adds_channels (env : Env) (p1 p2 p3 x y z ch k : Z)
    (n_labels : Z) (lr : Q) :
  0 < p1 -> 0 < p2 -> 0 < p3 ->
  0 < x -> 0 < y -> 0 < z -> 0 < ch -> 0 < n_labels ->
  (p1 * p1 * p1 | x) -> (p2 * p2 * p2 | y) -> (p3 * p3 * p3 | z) ->
  0 < k <= 32 ->
  exists m w,
    unet_model_3d env [x; y; z; ch] (inject_Z k) [p1; p2; p3] n_labels lr false
                  init_world
    = (Ok m, w)
    /\ map channels (concatenated w)
       = [Some (512 / k + 256 / k);
          Some (256 / k + 128 / k);
          Some (128 / k + 64 / k)]
    /\ map channels (upsampled_outputs w)
       = [Some (512 / k); Some (256 / k); Some (128 / k)]
    /\ map channels (pooled_inputs w)
       = [Some (64 / k); Some (128 / k); Some (256 / k)].
Proof.
  intros H1 H2 H3 _ _ _ _ _ Hx Hy Hz Hk.
  assert (Hf : Qnum (inject_Z k) <> 0) by (cbn [inject_Z Qnum]; lia).
  destruct (unet_run_cubes env p1 p2 p3 x y z ch (inject_Z k) n_labels lr
              Hf ltac:(lia) ltac:(lia) ltac:(lia) Hx Hy Hz)
    as (a & b & c & -> & -> & -> & Hrun).
  exists (unet_model (inject_Z k) p1 p2 p3 a b c ch n_labels lr),
         (unet_world (inject_Z k) p1 p2 p3 a b c ch n_labels lr).
  split; [exact Hrun|].
  rewrite <- (scaled_int 512 k), <- (scaled_int 256 k), <- (scaled_int 128 k),
          <- (scaled_int 64 k) by lia.
  repeat split.
Qed.

Lemma concatenation_adds_channels_witness :
  (0 < 2 /\ 0 < 8 /\ 0 < 1 /\ (2 * 2 * 2 | 8) /\ 0 < 2 <= 32) /\
  exists m w,
    unet_model_3d demo_env [8; 8; 8; 1] (inject_Z 2) [2; 2; 2] 1 (1 # 100) false
                  init_world
    = (Ok m, w)
    /\ map channels (concatenated w)
       = [Some (512 / 2 + 256 / 2);
          Some (256 / 2 + 128 / 2);
          Some (128 / 2 + 64 / 2)]
    /\ map channels (upsampled_outputs w)
       = [Some (512 / 2); Some (256 / 2); Some (128 / 2)]
    /\ map channels (pooled_inputs w)
       = [Some (64 / 2); Some (128 / 2); Some (256 / 2)].
Proof.
  assert (H8 : (2 * 2 * 2 | 8)) by (exists 1; reflexivity).
  assert (Hk : 0 < 2 <= 32) by (split; [reflexivity | discriminate]).
  split.
  - repeat split; try assumption; try reflexivity; discriminate.
  - exact (concatenation_adds_channels demo_env 2 2 2 8 8 8 1 2 1 (1 # 100)
             eq_refl eq_refl eq_refl eq_refl eq_refl eq_refl eq_refl eq_refl
             H8 H8 H8 Hk).
Defined.

(* ================================================================== *)
(** * Further properties: the two upsampling variants                   *)
(* ================================================================== *)

Lemma bind_ext {A B} (m m' : M A) (k k' : A -> M B) (w : World) :
  m w = m' w -> (forall a w1, k a w1 = k' a w1) -> bind m k w = bind m' k' w.
Proof.
  intros Hm Hk. unfold bind. rewrite Hm.
  destruct (m' w) as [[a|e] w1]; [apply Hk | reflexivity].
Qed.

Lemma call_plain (d d' : option DeconvRule) (l : Layer) (x : Tensor) (w : World) :
  plain l -> call d l x w = call d' l x w.
Proof.
  intros Hl. unfold call. apply bind_ext; [|reflexivity].
  unfold lift. destruct l; try reflexivity. contradiction.
Qed.

Lemma applied_plain (env env' : Env) (mk : M Layer) (x : Tensor) (w : World) :
  (forall l w1, mk w = (Ok l, w1) -> plain l) ->
  applied env mk x w = applied env' mk x w.
Proof.
  intros Hmk. unfold applied, bind.
  destruct (mk w) as [[l|e] w1] eqn:E; [|reflexivity].
  apply call_plain. exact (Hmk l w1 eq_refl).
Qed.

Lemma plain_scaled (base : Z) (f : Q) (mk : Z -> M Layer) (w : World) :
  (forall n l w1, mk n w = (Ok l, w1) -> plain l) ->
  forall l w1, bind (int_div base f) mk w = (Ok l, w1) -> plain l.
Proof.
  intros Hmk l w1. unfold bind, int_div, lift, truediv.
  destruct (Qnum f =? 0); [discriminate|]. cbn [rbind int_of_float].
  apply Hmk.
Qed.

Lemma plain_Conv3D (n : Z) (ks : list Z) (act : option string) (pad : Padding)
    (w : World) (l : Layer) (w1 : World) :
  Conv3D n ks act pad w = (Ok l, w1) -> plain l.
Proof.
  unfold Conv3D, lift, normalize_tuple.
  destruct (length ks =? 3)%nat; [|discriminate]. intros [= <- _]. exact I.
Qed.

Lemma plain_MaxPooling3D (ps : list Z) (w : World) (l : Layer) (w1 : World) :
  MaxPooling3D ps w = (Ok l, w1) -> plain l.
Proof.
  unfold MaxPooling3D, lift, normalize_tuple.
  destruct (length ps =? 3)%nat; [|discriminate]. intros [= <- _]. exact I.
Qed.

Lemma plain_UpSampling3D (sz : list Z) (w : World) (l : Layer) (w1 : World) :
  UpSampling3D sz w = (Ok l, w1) -> plain l.
Proof.
  unfold UpSampling3D, lift, normalize_tuple.
  destruct (length sz =? 3)%nat; [|discriminate]. intros [= <- _]. exact I.
Qed.

Lemma plain_Activation (name : string) (w : World) (l : Layer) (w1 : World) :
  Activation name w = (Ok l, w1) -> plain l.
Proof. intros [= <- _]. exact I. Qed.

Lemma applied_upconv_plain (env env' : Env) (base : Z) (f : Q) (depth : Z)
    (pool_size image_shape kernel_size strides : list Z) (x : Tensor) (w : World) :
  applied env (n <- int_div base f ;;
               get_upconv env depth n pool_size image_shape kernel_size strides false)
          x w
  = applied env' (n <- int_div base f ;;
                  get_upconv env' depth n pool_size image_shape kernel_size strides
                             false)
            x w.
Proof.
  change (applied env (n <- int_div base f ;; UpSampling3D pool_size) x w
          = applied env' (n <- int_div base f ;; UpSampling3D pool_size) x w).
  apply applied_plain. apply plain_scaled. intros n. apply plain_UpSampling3D.
Qed.

(** X11. With [deconvolution=False] the build does not depend on the
    add-on: whether [keras_contrib] is importable or not, and whatever
    it provides, the outcome and the calls made are the same, for every
    argument and every state. *)
Theorem plain_build_ignores_addon (env env' : Env) (input_shape : list Z) (f : Q)
    (pool_size : list Z) (n_labels : Z) (lr : Q) (w : World) :
  unet_model_3d env input_shape f pool_size n_labels lr false w
  = unet_model_3d env' input_shape f pool_size n_labels lr false w.
Proof.
  unfold unet_model_3d. cbv zeta.
  repeat (apply bind_ext;
          [ first [ apply applied_upconv_plain
                  | apply applied_plain;
                    first [ apply plain_scaled; intros ?; apply plain_Conv3D
                          | apply plain_MaxPooling3D
                          | apply plain_Conv3D
                          | apply plain_Activation ]
                  | reflexivity ]
          | intros ? ?; cbv beta ]).
  reflexivity.
Qed.

(** X12. The two upsampling variants exclude each other, whatever the
    arguments and the outcome of the build: with [deconvolution=True] no
    [UpSampling3D] layer is called, with [deconvolution=False] no
    [Deconvolution3D] layer. *)
Theorem upsampling_variants_exclusive (env : Env) (input_shape : list Z) (f : Q)
    (pool_size : list Z) (n_labels : Z) (lr : Q) (deconvolution : bool) :
  let w := snd (unet_model_3d env input_shape f pool_size n_labels lr
                              deconvolution init_world) in
  (deconvolution = true -> forall size, ~ In (OUpSampling size) (ops w))
  /\ (deconvolution = false -> forall n, ~ In (ODeconvolution n) (ops w)).
Proof.
  intros w.
  destruct (unet_model_3d env input_shape f pool_size n_labels lr deconvolution
              init_world) as [r w0] eqn:Hrun.
  destruct (unet_outcome _ _ _ _ _ _ _ _ _ Hrun) as (_ & [rest Hpre] & _).
  assert (Hw : forall o, In o (ops w0) ->
               In o (architecture f pool_size n_labels deconvolution)).
  { intros o Ho. rewrite Hpre. apply in_or_app. left. exact Ho. }
  subst w. cbn [snd].
  split; intros -> o Hin; apply Hw in Hin;
    cbn [architecture In] in Hin;
    repeat (destruct Hin as [Hin|Hin]; [discriminate Hin|]); exact Hin.
Qed.

(* ================================================================== *)
(** * Further properties: what every returned model has                 *)
(* ================================================================== *)

Lemma bind_inv {A B} (m : M A) (k : A -> M B) (w w' : World) (b : B) :
  bind m k w = (Ok b, w') ->
  exists a w1, m w = (Ok a, w1) /\ k a w1 = (Ok b, w').
Proof.
  unfold bind. destruct (m w) as [[a|e] w1]; [|discriminate].
  intros H. exists a, w1. split; [reflexivity | exact H].
Qed.

Lemma call_inv (d : option DeconvRule) (l : Layer) (x y : Tensor) (w w1 : World) :
  call d l x w = (Ok y, w1) -> layer_shape d l (tshape x) = Ok (tshape y).
Proof.
  unfold call, bind, lift.
  destruct (layer_shape d l (tshape x)) as [s|e]; [|discriminate].
  cbn. intros [= <- _]. reflexivity.
Qed.

Lemma conv3d_shape_inv (n : Z) (ks : list Z) (p : Padding) (s s' : Shape) :
  conv3d_shape n ks p s = Ok s' ->
  length s' = 5%nat /\ nth 4 s' None = Some n.
Proof.
  unfold conv3d_shape.
  destruct s as [|b [|d1 [|d2 [|d3 [|ch [|extra s]]]]]]; try discriminate.
  destruct ks as [|k1 [|k2 [|k3 [|k4 ks]]]]; try discriminate.
  destruct ch as [c|]; [|discriminate].
  destruct (conv_output_length d1 k1 p 1) as [o1|e]; [|discriminate].
  destruct (conv_output_length d2 k2 p 1) as [o2|e]; [|discriminate].
  destruct (conv_output_length d3 k3 p 1) as [o3|e]; [|discriminate].
  cbn [rbind]. intros [= <-]. split; reflexivity.
Qed.

Lemma applied_conv_inv (env : Env) (n : Z) (ks : list Z) (act : option string)
    (pad : Padding) (x y : Tensor) (w w1 : World) :
  applied env (Conv3D n ks act pad) x w = (Ok y, w1) ->
  length (tshape y) = 5%nat /\ nth 4 (tshape y) None = Some n.
Proof.
  unfold applied. intros H.
  apply bind_inv in H. destruct H as (l & w0 & Hl & Hc).
  unfold Conv3D, lift, normalize_tuple in Hl.
  destruct (length ks =? 3)%nat; [|discriminate]. injection Hl as <- <-.
  apply call_inv in Hc. cbn [layer_shape] in Hc.
  exact (conv3d_shape_inv n ks pad (tshape x) (tshape y) Hc).
Qed.

Lemma applied_activation_inv (env : Env) (name : string) (x y : Tensor)
    (w w1 : World) :
  applied env (Activation name) x w = (Ok y, w1) -> tshape y = tshape x.
Proof.
  unfold applied. intros H.
  apply bind_inv in H. destruct H as (l & w0 & Hl & Hc).
  injection Hl as <- <-. apply call_inv in Hc. cbn [layer_shape] in Hc.
  congruence.
Qed.

Lemma Input_inv (shape : list Z) (t : Tensor) (w w1 : World) :
  Input shape w = (Ok t, w1) -> tshape t = None :: map Some shape.
Proof. cbn. intros [= <- _]. reflexivity. Qed.

(** X13. Every model the builder returns, whatever the arguments and
    the upsampling variant, is compiled with the Adam optimizer at
    [initial_learning_rate], the loss [dice_coef_loss] and the single
    metric [dice_coef]; its input is the placeholder of [input_shape]
    with a free batch axis, its output is a 5-D tensor with exactly
    [n_labels] channels, and compiling is the last thing the builder
    asks of the framework. *)
Theorem returned_model_is_compiled (env : Env) (input_shape : list Z) (f : Q)
    (pool_size : list Z) (n_labels : Z) (lr : Q) (deconvolution : bool)
    (m : Model) (w : World) :
  unet_model_3d env input_shape f pool_size n_labels lr deconvolution init_world
  = (Ok m, w) ->
  optimizer m = Some lr
  /\ loss m = Some "dice_coef_loss"%string
  /\ metrics m = ["dice_coef"%string]
  /\ tshape (inputs m) = None :: map Some input_shape
  /\ length (tshape (outputs m)) = 5%nat
  /\ channels (outputs m) = Some n_labels
  /\ last (ops w) OInput = OCompile.
Proof.
  intros Hrun.
  assert (Hlast : last (ops w) OInput = OCompile).
  { destruct (unet_outcome _ _ _ _ _ _ _ _ _ Hrun) as (Hok & _ & _).
    rewrite (Hok m eq_refl). destruct deconvolution; reflexivity. }
  unfold unet_model_3d in Hrun. cbv zeta in Hrun.
  repeat (apply bind_inv in Hrun; destruct Hrun as (? & ? & ? & Hrun)).
  match goal with
  | Hin : Input input_shape _ = (Ok ?t, _),
    Hc8 : applied env (Conv3D n_labels _ _ _) _ _ = (Ok ?c8, _),
    Hact : applied env (Activation _) ?c8 _ = (Ok ?act, _),
    Hmod : Model_ ?t ?act _ = (Ok ?m0, _),
    Hcomp : compile ?m0 _ _ _ _ = (Ok ?m1, _) |- _ =>
      apply Input_inv in Hin;
      apply applied_conv_inv in Hc8; destruct Hc8 as [Hlen Hch];
      apply applied_activation_inv in Hact;
      injection Hmod as <- _;
      injection Hcomp as <- _;
      injection Hrun as <- _
  end.
  cbn [optimizer loss metrics inputs outputs]. unfold channels.
  repeat split; try assumption; congruence.
Qed.

Lemma returned_model_is_compiled_witness :
  unet_model_3d demo_env [8; 8; 8; 1] 1 [2; 2; 2] 3 (1 # 100) false init_world
  = (Ok (unet_model 1 2 2 2 1 1 1 1 3 (1 # 100)),
     unet_world 1 2 2 2 1 1 1 1 3 (1 # 100))
  /\ optimizer (unet_model 1 2 2 2 1 1 1 1 3 (1 # 100)) = Some (1 # 100)
  /\ channels (outputs (unet_model 1 2 2 2 1 1 1 1 3 (1 # 100))) = Some 3.
Proof.
  assert (Hrun : unet_model_3d demo_env [8; 8; 8; 1] 1 [2; 2; 2] 3 (1 # 100)
                               false init_world
                 = (Ok (unet_model 1 2 2 2 1 1 1 1 3 (1 # 100)),
                    unet_world 1 2 2 2 1 1 1 1 3 (1 # 100))).
  { exact (unet_run demo_env 1 2 2 2 1 1 1 1 3 (1 # 100)
             ltac:(discriminate) ltac:(discriminate) ltac:(discriminate)
             ltac:(discriminate)). }
  destruct (returned_model_is_compiled demo_env [8; 8; 8; 1] 1 [2; 2; 2] 3 (1 # 100)
              false _ _ Hrun) as (Ho & _ & _ & _ & _ & Hc & _).
  split; [exact Hrun|]. split; [exact Ho | exact Hc].
Defined.

(* ================================================================== *)
(** * Further properties: constructing [Simple3DModel]                  *)
(* ================================================================== *)

Lemma init_unfold (env : Env) (w : World) :
  Simple3DModel__init__ env w
  = match unet_model_3d env (DATA_SHAPE env) 1 [2; 2; 2] 1 (1 # 100) false w with
    | (Ok m, w') => (Ok {| model := m |}, w')
    | (Raise e, w') => (Raise e, w')
    end.
Proof. reflexivity. Qed.

Lemma aligned_dec (x y z : Z) :
  {(8 | x) /\ (8 | y) /\ (8 | z)} + {~ ((8 | x) /\ (8 | y) /\ (8 | z))}.
Proof.
  destruct (Z.eq_dec (x mod 8) 0) as [Hx|Hx];
    [|right; intros (H & _ & _); apply Hx; apply Z.mod_divide; [discriminate | exact H]].
  destruct (Z.eq_dec (y mod 8) 0) as [Hy|Hy];
    [|right; intros (_ & H & _); apply Hy; apply Z.mod_divide; [discriminate | exact H]].
  destruct (Z.eq_dec (z mod 8) 0) as [Hz|Hz];
    [|right; intros (_ & _ & H); apply Hz; apply Z.mod_divide; [discriminate | exact H]].
  left. repeat split; apply Z.mod_divide; (discriminate || assumption).
Qed.

(** X14. When [DATA_SHAPE] is a 4-tuple [(x, y, z, channels)],
    constructing a [Simple3DModel] succeeds exactly when x, y and z are
    multiples of 8; the model it then holds maps to an output of shape
    [(None, x, y, z, 1)] and has the unscaled filter schedule. *)
Theorem init_succeeds_iff_aligned (env : Env) (x y z ch : Z) :
  DATA_SHAPE env = [x; y; z; ch] ->
  ((exists self w, Simple3DModel__init__ env init_world = (Ok self, w))
   <-> (8 | x) /\ (8 | y) /\ (8 | z))
  /\ (forall self w,
        Simple3DModel__init__ env init_world = (Ok self, w) ->
        tshape (outputs (model self)) = [None; Some x; Some y; Some z; Some 1]
        /\ conv_filters w
           = [32; 64; 64; 128; 128; 256; 256; 512; 256; 256; 128; 128; 64; 64; 1]).
Proof.
  intros HD. rewrite init_unfold, HD.
  assert (Hf : Qnum 1 <> 0) by discriminate.
  destruct (aligned_dec x y z) as [(Hx & Hy & Hz)|Hnot].
  - destruct (unet_run_8 env x y z ch 1 1 (1 # 100) Hf Hx Hy Hz)
      as (a & b & c & -> & -> & -> & Hrun).
    rewrite Hrun. split.
    + split; [intros _; repeat split; assumption|].
      intros _. eexists. eexists. reflexivity.
    + intros self w [= <- <-]. split; reflexivity.
  - pose proof (unet_misaligned env x y z ch 1 1 (1 # 100) Hf Hnot) as Hfail.
    destruct (unet_model_3d env [x; y; z; ch] 1 [2; 2; 2] 1 (1 # 100) false init_world)
      as [r w0].
    cbn [fst] in Hfail. subst r. split.
    + split; [intros (self & w & H); discriminate H | intros H; contradiction].
    + intros self w H. discriminate H.
Qed.

Lemma init_succeeds_iff_aligned_witness :
  DATA_SHAPE demo_env = [16; 16; 16; 1] /\
  ((exists self w, Simple3DModel__init__ demo_env init_world = (Ok self, w))
   <-> (8 | 16) /\ (8 | 16) /\ (8 | 16)).
Proof.
  split; [reflexivity|].
  exact (proj1 (init_succeeds_iff_aligned demo_env 16 16 16 1 eq_refl)).
Defined.

(* ================================================================== *)
(** * Further properties: exact and binary64 quotients                  *)
(* ================================================================== *)

Lemma int_div_binary64 (base k : Z) :
  0 <= base <= 2 ^ 53 -> 0 < k ->
  lift (int_truediv base (inject_Z k)) = int_div base (inject_Z k).
Proof.
  intros Hb Hk. unfold int_div, truediv. cbn [inject_Z Qnum].
  destruct (Z.eqb_spec k 0) as [E|_]; [lia|].
  cbn [rbind int_of_float]. fold (inject_Z k). fold (scaled base (inject_Z k)).
  rewrite int_truediv_nonneg, scaled_int by lia. reflexivity.
Qed.

(** X16. At a positive integer filter factor the builder over binary64
    quotients and the builder over exact quotients are the same
    computation: same outcome and same journal, from every state and for
    all other arguments. *)
Theorem binary64_builder_at_integer_factor (env : Env) (input_shape : list Z)
    (k : Z) (pool_size : list Z) (n_labels : Z) (lr : Q) (deconvolution : bool)
    (w : World) :
  0 < k ->
  unet_model_3d_binary64 env input_shape (inject_Z k) pool_size n_labels lr
                         deconvolution w
  = unet_model_3d env input_shape (inject_Z k) pool_size n_labels lr
                  deconvolution w.
Proof.
  intros Hk.
  unfold unet_model_3d_binary64, unet_model_3d_with, unet_model_3d. cbv zeta.
  rewrite (int_div_binary64 32 k), (int_div_binary64 64 k),
          (int_div_binary64 128 k), (int_div_binary64 256 k),
          (int_div_binary64 512 k)
    by (exact Hk || (split; discriminate)).
  reflexivity.
Qed.

Lemma binary64_builder_at_integer_factor_witness :
  0 < 2 /\
  unet_model_3d_binary64 demo_env [8; 8; 8; 1] (inject_Z 2) [2; 2; 2] 1 (1 # 100)
                         false init_world
  = unet_model_3d demo_env [8; 8; 8; 1] (inject_Z 2) [2; 2; 2] 1 (1 # 100)
                  false init_world.
Proof.
  split; [reflexivity|].
  exact (binary64_builder_at_integer_factor demo_env [8; 8; 8; 1] 2 [2; 2; 2] 1
           (1 # 100) false init_world eq_refl).
Defined.

(** X17. Off the integers the two quotients part.  At the factor 1.6
    the binary64 quotient of 32 is 20.0 and the builder makes 20
    filters, where the exact quotient by the binary64 value of 1.6
    truncates to 19.  At the smallest positive binary64, 2^-1074, the
    quotient overflows to infinity and the build stops at the first
    convolution with [OverflowError], only the placeholder created. *)
Theorem binary64_quotient_not_exact :
  (int_truediv 32 f_1_6 = Ok 20 /\ scaled 32 f_1_6 = 19)
  /\ unet_model_3d_binary64 demo_env [8; 8; 8; 1] (1 # Z.to_pos (2 ^ 1074))
                            [2; 2; 2] 1 (1 # 100) false init_world
     = (Raise (OverflowError "cannot convert float infinity to integer"),
        {| next_id := 1;
           journal := [EInput {| tid := 0;
                                 tshape := [None; Some 8; Some 8; Some 8; Some 1] |}] |}).
Proof. vm_compute. repeat split. Qed.
(* ================================================================== *)
(** * Worked examples                                                   *)
(* ================================================================== *)

Example level_shape_d0 :
  compute_level_output_shape 128 0 [2;2;2] [64;64;1]
  = Ok [None; Some 128; Some 64; Some 64; Some 1].
Proof. reflexivity. Qed.

Example level_shape_d3 :
  compute_level_output_shape 512 3 [2;2;2] [64;64;64]
  = Ok [None; Some 512; Some 10; Some 10; Some 10].
Proof. reflexivity. Qed.

(** A 9 x 9 x 9 volume pools to 4, 2, 1 and upsamples to 2, 4, 8: the
    last concatenation meets 8 against 9 and is refused. *)
Example build_9_fails :
  fst (unet_model_3d demo_env [9; 9; 9; 1] 1 [2; 2; 2] 1 (1 # 100) false init_world)
  = Raise (ValueError "Concatenate layer requires inputs with matching shapes except for the concat axis.")
  /\ length (concatenations
               (snd (unet_model_3d demo_env [9; 9; 9; 1] 1 [2; 2; 2] 1 (1 # 100)
                                   false init_world))) = 2%nat.
Proof. vm_compute. split; reflexivity. Qed.

(** The default build of the demonstration environment. *)
Example init_demo :
  conv_filters (snd (Simple3DModel__init__ demo_env init_world))
  = [32; 64; 64; 128; 128; 256; 256; 512; 256; 256; 128; 128; 64; 64; 1].
Proof. vm_compute. reflexivity. Qed.

(** With the flag set and no add-on, the build of a valid volume stops
    after the encoder. *)
Example deconvolution_without_addon :
  unet_model_3d demo_env [8; 8; 8; 1] 1 [2; 2; 2] 1 (1 # 100) true init_world
  = (Raise (ImportError import_error_message), encoder_world 1 2 2 2 1 1 1 1).
Proof. vm_compute. reflexivity. Qed.

(** The level shape used for the add-on's [input_shape] at the deepest
    level divides by 6, not by 8. *)
Example level_shape_depth_3 :
  compute_level_output_shape 512 3 [2; 2; 2] [48; 48; 48]
  = Ok [None; Some 512; Some 8; Some 8; Some 8].
Proof. reflexivity. Qed.

(** A [pool_size] of one entry is stretched over the image. *)
Example level_shape_broadcast :
  compute_level_output_shape 512 2 [2] [64; 32; 16]
  = Ok [None; Some 512; Some 16; Some 8; Some 4].
Proof. vm_compute. reflexivity. Qed.

(** [int(32 / 1.6)], [int(64 / 51.2)] and [int(32 / -3)]. *)
Example int_truediv_values :
  int_truediv 32 f_1_6 = Ok 20
  /\ int_truediv 64 (float_literal (512 # 10)) = Ok 1
  /\ int_truediv 32 (inject_Z (-3)) = Ok (-10).
Proof. vm_compute. repeat split. Qed.
